(** * aave-bord-api: the liquidity-rates endpoint of [myAssets.js]

    A shallow embedding of [src/myAssets.js] and the properties of its
    token-list cache, per-network fetcher and HTTP handler.

    - JavaScript numbers are IEEE 754 binary64 values, modelled with the
      Standard Library's [spec_float] at precision 53 and [emax] 1024.
    - Decimal-integer strings coming from the chain (balances, indexes,
      prices) and ethers' [BigNumber] are modelled as [Z].
    - Asynchronous functions are run to completion one after the other, as
      the source awaits each call before the next: a computation is a
      function from the process state to a completion (normal or thrown)
      and the new state.
    - What the outside world answers during one call (clock readings, HTTP
      responses, RPC results) is an explicit argument of that call.
    - The packages the file imports are parameters ([Math.pow], the address
      book, the [ChainId] enumeration) or outcomes of the call (the two
      data-provider reads). The constructors of the data provider and of
      the JSON-RPC provider only record their arguments.
    - Strings are sequences of 8-bit characters and a JSON token carries its
      three fields as optional strings. The case mappings of
      [String.prototype], which follow the Unicode tables of the engine, are
      parameters of which nothing is assumed. *)

From Stdlib Require Import ZArith Lia Ascii String SpecFloat.
From stdpp Require Import base option list strings pretty gmap.

Local Open Scope string_scope.
Local Open Scope list_scope.
Local Open Scope Z_scope.

(** ** JavaScript numbers *)

Module JsNumber.

Definition prec : Z := 53.
Definition emax : Z := 1024.

Definition number : Type := spec_float.

Definition add : number → number → number := SFadd prec emax.
Definition sub : number → number → number := SFsub prec emax.
Definition mul : number → number → number := SFmul prec emax.
Definition div : number → number → number := SFdiv prec emax.
Definition ltb : number → number → bool := SFltb.

(** The number denoted by an integer literal or by a string of decimal
    digits: the integer rounded to the nearest binary64, ties to even. *)
Definition of_Z (z : Z) : number := binary_normalize prec emax z 0 false.

(** An integer as an unrounded significand with exponent 0. *)
Definition exact (z : Z) : spec_float :=
  match z with
  | Z0 => S754_zero false
  | Zpos p => S754_finite false p 0
  | Zneg p => S754_finite true p 0
  end.

(** [parseFloat] of the decimal string that denotes [n / 10^d]: the
    quotient of the two integers, rounded once to the nearest binary64. *)
Definition of_decimal (n : Z) (d : Z) : number :=
  SFdiv prec emax (exact n) (exact (10 ^ d)).

Definition zero : number := S754_zero false.

End JsNumber.

Import JsNumber.

(** ** JavaScript strings

    Strings are sequences of 8-bit characters.
    [String.prototype.toUpperCase] and [String.prototype.toLowerCase] map
    letters as the Unicode tables of the engine say; they are taken as two
    functions on strings, and the program is modelled for any such pair. *)

Class StringPrototype := {
  toUpperCase : string → string;
  toLowerCase : string → string
}.

(** [s.charAt(0)] and [s.slice(1)] *)
Definition charAt_0 (s : string) : string :=
  match s with
  | EmptyString => EmptyString
  | String c _ => String c EmptyString
  end.

Definition slice_1 (s : string) : string :=
  match s with
  | EmptyString => EmptyString
  | String _ rest => rest
  end.

(** ** Process state and computations *)

Inductive JsError :=
  | Error (message : string)
  | TypeError (message : string)
  | ArgumentError (message : string)
  | Rejected (reason : string).

Inductive Completion (A : Type) :=
  | Normal (value : A)
  | Throw (error : JsError).
Arguments Normal {A} value.
Arguments Throw {A} error.

Inductive ConsoleLine :=
  | console_log_line (message : string)
  | console_warn_line (message : string)
  | console_error_line (message : string) (error : JsError).

(** One entry of a token list, as stored in the symbol-keyed map. A field
    the document does not give is [None] (JavaScript's [undefined]). *)
Record TokenEntry := {
  te_name : option string;
  te_symbol : string;
  te_image_url : option string
}.

Record CacheEntry := {
  data : gmap string TokenEntry;
  timestamp : Z
}.

Record World := {
  tokenListCache : gmap string CacheEntry;
  console : list ConsoleLine;
  requests : list string       (* URLs handed to fetch(), oldest first *)
}.

Definition Js (A : Type) : Type := World → Completion A * World.

Definition ret {A} (a : A) : Js A := λ w, (Normal a, w).

Definition throw {A} (e : JsError) : Js A := λ w, (Throw e, w).

Definition bind {A B} (c : Js A) (k : A → Js B) : Js B :=
  λ w, match c w with
       | (Normal a, w') => k a w'
       | (Throw e, w') => (Throw e, w')
       end.

Definition try_catch {A} (body : Js A) (handler : JsError → Js A) : Js A :=
  λ w, match body w with
       | (Normal a, w') => (Normal a, w')
       | (Throw e, w') => handler e w'
       end.

Definition lift {A} (c : Completion A) : Js A := λ w, (c, w).

Declare Scope js_scope.
Delimit Scope js_scope with js.
Notation "'let!' x ':=' c 'in' k" := (bind c (λ x, k))
  (at level 10, x name, c at level 100, k at level 200) : js_scope.
Notation "c ';;;' k" := (bind c (λ _, k))
  (at level 100, k at level 200, right associativity) : js_scope.
Local Open Scope js_scope.

(** The three ways the program changes the process state. *)
Definition logged (line : ConsoleLine) (w : World) : World :=
  {| tokenListCache := tokenListCache w;
     console := console w ++ [line];
     requests := requests w |}.

Definition requested (url : string) (w : World) : World :=
  {| tokenListCache := tokenListCache w;
     console := console w;
     requests := requests w ++ [url] |}.

Definition stored (networkName : string) (entry : CacheEntry) (w : World) : World :=
  {| tokenListCache := <[networkName := entry]> (tokenListCache w);
     console := console w;
     requests := requests w |}.

Definition console_write (line : ConsoleLine) : Js unit :=
  λ w, (Normal tt, logged line w).

Definition console_log (message : string) : Js unit :=
  console_write (console_log_line message).
Definition console_warn (message : string) : Js unit :=
  console_write (console_warn_line message).
Definition console_error (message : string) (error : JsError) : Js unit :=
  console_write (console_error_line message error).

Definition tokenListCache_get (networkName : string) : Js (option CacheEntry) :=
  λ w, (Normal (tokenListCache w !! networkName), w).

Definition tokenListCache_set (networkName : string) (entry : CacheEntry)
  : Js unit :=
  λ w, (Normal tt, stored networkName entry w).

(** ** Configuration tables *)

Definition chainProviders : list (string * string) :=
  [ ("ethereum", "https://eth-mainnet.public.blastapi.io");
    ("polygon", "https://polygon-mainnet.public.blastapi.io");
    ("avalanche", "https://ava-mainnet.public.blastapi.io/ext/bc/C/rpc");
    ("base", "https://base-mainnet.public.blastapi.io");
    ("arbitrum", "https://arbitrum-one.public.blastapi.io");
    ("optimism", "https://optimism-mainnet.public.blastapi.io") ].

Definition tokenListUrls : list (string * string) :=
  [ ("ethereum", "https://gateway.ipfs.io/ipns/tokens.uniswap.org");
    ("polygon", "https://unpkg.com/quickswap-default-token-list@1.3.27/build/quickswap-default.tokenlist.json");
    ("avalanche", "https://raw.githubusercontent.com/traderjoe-xyz/joe-tokenlists/main/joe.tokenlist.json");
    ("arbitrum", "https://tokenlist.arbitrum.io/ArbTokenLists/arbed_arb_whitelist_era.json");
    ("optimism", "https://static.optimism.io/optimism.tokenlist.json");
    ("base", "https://raw.githubusercontent.com/ethereum-optimism/ethereum-optimism.github.io/master/optimism.tokenlist.json") ].

Record NetworkMeta := {
  nm_name : string;
  nm_image_url : string
}.

Definition networkMetadata : list (string * NetworkMeta) :=
  [ ("ethereum", {| nm_name := "Ethereum";
       nm_image_url := "https://raw.githubusercontent.com/trustwallet/assets/master/blockchains/ethereum/info/logo.png" |});
    ("polygon", {| nm_name := "Polygon";
       nm_image_url := "https://raw.githubusercontent.com/trustwallet/assets/master/blockchains/polygon/info/logo.png" |});
    ("avalanche", {| nm_name := "Avalanche";
       nm_image_url := "https://raw.githubusercontent.com/trustwallet/assets/master/blockchains/avalanchec/info/logo.png" |});
    ("base", {| nm_name := "Base";
       nm_image_url := "https://raw.githubusercontent.com/trustwallet/assets/master/blockchains/base/info/logo.png" |});
    ("arbitrum", {| nm_name := "Arbitrum";
       nm_image_url := "https://raw.githubusercontent.com/trustwallet/assets/master/blockchains/arbitrum/info/logo.png" |});
    ("optimism", {| nm_name := "Optimism";
       nm_image_url := "https://raw.githubusercontent.com/trustwallet/assets/master/blockchains/optimism/info/logo.png" |}) ].

(** Property access [table[key]]: the first own property of that name. *)
Fixpoint property {V} (table : list (string * V)) (key : string) : option V :=
  match table with
  | [] => None
  | (k, v) :: rest => if String.eqb k key then Some v else property rest key
  end.

Section Code.

Context {js : StringPrototype}.

(** ** Token list cache *)

Definition CACHE_DURATION : Z := 24 * 60 * 60 * 1000.

(** One element of [tokenList.tokens]; [tj_symbol = None] stands for an
    element whose [symbol] is not a string. *)
Record TokenJson := {
  tj_symbol : option string;
  tj_name : option string;
  tj_logoURI : option string
}.

(** The parsed body; [tl_tokens = None] stands for a document without a
    [tokens] array. *)
Record TokenListJson := {
  tl_tokens : option (list TokenJson)
}.

Inductive Body :=
  | body_invalid_json
  | body_json (tokenList : TokenListJson).

Inductive FetchOutcome :=
  | fetch_rejects (reason : string)
  | fetch_responds (ok : bool) (status : Z) (body : Body).

(** What the outside world answers during one call of [fetchTokenList]. *)
Record TokenListIO := {
  now_at_check : Z;               (* Date.now() in the freshness test *)
  http : string → FetchOutcome;   (* the response to fetch(url) *)
  now_at_store : Z                (* Date.now() when the entry is stored *)
}.

Record Response := {
  response_ok : bool;
  response_status : Z;
  response_body : Body
}.

Definition fetch (io : TokenListIO) (url : option string) : Js Response :=
  match url with
  | None => throw (TypeError "Failed to parse URL from undefined")
  | Some u =>
      λ w,
        match http io u with
        | fetch_rejects reason => (Throw (Rejected reason), requested u w)
        | fetch_responds ok status body =>
            (Normal {| response_ok := ok; response_status := status;
                       response_body := body |}, requested u w)
        end
  end.

Definition response_json (response : Response) : Js TokenListJson :=
  match response_body response with
  | body_invalid_json => throw (Error "Unexpected token in JSON")
  | body_json tokenList => ret tokenList
  end.

(** [tokenList.tokens.forEach(token => tokenMap.set(...))] *)
Fixpoint forEach_set (tokens : list TokenJson) (tokenMap : gmap string TokenEntry)
  : Completion (gmap string TokenEntry) :=
  match tokens with
  | [] => Normal tokenMap
  | token :: rest =>
      match tj_symbol token with
      | None => Throw (TypeError "Cannot read properties of undefined (reading 'toUpperCase')")
      | Some symbol =>
          forEach_set rest
            (<[toUpperCase symbol :=
                 {| te_name := tj_name token;
                    te_symbol := symbol;
                    te_image_url := tj_logoURI token |}]> tokenMap)
      end
  end.

Definition buildTokenMap (tokenList : TokenListJson)
  : Completion (gmap string TokenEntry) :=
  match tl_tokens tokenList with
  | None => Throw (TypeError "Cannot read properties of undefined (reading 'forEach')")
  | Some tokens => forEach_set tokens ∅
  end.

Definition fetchTokenList (io : TokenListIO) (networkName : string)
  : Js (gmap string TokenEntry) :=
  try_catch
    (let! cachedData := tokenListCache_get networkName in
     let hit :=
       match cachedData with
       | Some entry =>
           if now_at_check io - timestamp entry <? CACHE_DURATION
           then Some (data entry) else None
       | None => None
       end in
     match hit with
     | Some cached => ret cached
     | None =>
         let! response := fetch io (property tokenListUrls networkName) in
         if negb (response_ok response)
         then throw (Error ("HTTP error! status: " +:+
                            pretty (response_status response)))
         else
           let! tokenList := response_json response in
           let! tokenMap := lift (buildTokenMap tokenList) in
           tokenListCache_set networkName
             {| data := tokenMap; timestamp := now_at_store io |} ;;;
           ret tokenMap
     end)
    (λ error,
       console_warn ("Could not fetch token list for " +:+ networkName +:+
                     ", using fallback or empty list") ;;;
       ret ∅).

(** ** Balance normalizer *)

(** A decimal string: the text that denotes [dec_digits / 10^dec_places]. *)
Record DecimalString := {
  dec_digits : Z;
  dec_places : Z
}.

(** [ethers.utils.formatUnits(value, decimals)]: the exact decimal
    expansion of [value / 10^decimals]; ethers accepts 0 to 256 decimals
    and throws an argument error otherwise. *)
Definition formatUnits (value : Z) (decimals : Z) : Completion DecimalString :=
  if (0 <=? decimals) && (decimals <=? 256)
  then Normal {| dec_digits := value; dec_places := decimals |}
  else Throw (ArgumentError "invalid decimal size").

Definition parseFloat (s : DecimalString) : number :=
  of_decimal (dec_digits s) (dec_places s).

(** [decimals = None] is a call that leaves the parameter out: the default
    of 18 applies. *)
Definition normalizeBalance (balance : Z) (decimals : option Z)
  : Completion number :=
  match formatUnits balance (default 18 decimals) with
  | Normal s => Normal (parseFloat s)
  | Throw e => Throw e
  end.

(** ** Per-network fetcher *)

Record UserReserve := {
  ur_underlyingAsset : string;
  scaledATokenBalance : Z
}.

Record ReserveData := {
  underlyingAsset : string;
  symbol : string;
  decimals : Z;
  liquidityIndex : Z;
  liquidityRate : Z;
  priceInMarketReferenceCurrency : Z
}.

Record AssetResult := {
  a_underlyingAsset : string;
  a_symbol : string;
  name : option string;
  tokenBalance : number;
  priceInUSD : number;
  balanceInUSD : number;
  a_liquidityRate : number;
  image_url : option string
}.

Record NetworkResult := {
  network : string;
  networkName : string;
  networkImage : string;
  assets : list AssetResult;
  totalBalanceUSD : number
}.

(** The entry of one market in the address book. *)
Record Market := {
  UI_POOL_DATA_PROVIDER : string;
  POOL_ADDRESSES_PROVIDER : string
}.

Record UiPoolDataProvider := {
  uiPoolDataProviderAddress : string;
  provider : string;
  chainId : option Z
}.

(** What the outside world answers during one call of [fetchContractData]:
    the outcome of the two data-provider reads and of the token-list call. *)
Record ChainIO := {
  getUserReservesHumanized :
    UiPoolDataProvider → string → string → Completion (list UserReserve);
  getReservesHumanized :
    UiPoolDataProvider → string → Completion (list ReserveData);
  token_io : TokenListIO
}.

Definition user : string := "0x640dcF8E66e06723f565C637a1a09aCca45e65fc".

Definition placeholder_image : string :=
  "https://raw.githubusercontent.com/trustwallet/assets/master/blockchains/ethereum/assets/0x0000000000000000000000000000000000000000/logo.png".

(** [chain.charAt(0).toUpperCase() + chain.slice(1)] *)
Definition capitalize (chain : string) : string :=
  toUpperCase (charAt_0 chain) +:+ slice_1 chain.

(** The callbacks of [Array.prototype.map] with an [async] function all run,
    one after the other; each yields a promise that is fulfilled or
    rejected. *)
Fixpoint map_async {A B} (f : A → Js B) (l : list A) : Js (list (Completion B)) :=
  match l with
  | [] => ret []
  | x :: rest =>
      λ w, let '(r, w') := f x w in
           match map_async f rest w' with
           | (Normal rs, w'') => (Normal (r :: rs), w'')
           | (Throw e, w'') => (Throw e, w'')
           end
  end.

(** [await Promise.all(promises)]: the values, or the first rejection. *)
Fixpoint Promise_all {B} (promises : list (Completion B)) : Completion (list B) :=
  match promises with
  | [] => Normal []
  | Throw e :: _ => Throw e
  | Normal b :: rest =>
      match Promise_all rest with
      | Normal bs => Normal (b :: bs)
      | Throw e => Throw e
      end
  end.

(** [parseFloat] of a string of decimal digits, the form in which the data
    provider gives on-chain integers. *)
Definition parseFloat_integer (digits : Z) : number := of_Z digits.

(** The callback of [userReserves.filter]. *)
Definition has_balance (reserve : UserReserve) : bool :=
  ltb zero (parseFloat_integer (scaledATokenBalance reserve)).

(** The callback of [reservesData.find]: the same underlying asset, compared
    without regard to case. *)
Definition matches (reserve : UserReserve) (r : ReserveData) : bool :=
  String.eqb (toLowerCase (underlyingAsset r))
             (toLowerCase (ur_underlyingAsset reserve)).

(** [assets.filter(Boolean)] *)
Definition filter_Boolean {A} (l : list (option A)) : list A := omap id l.

(** [assets.reduce((sum, asset) => sum + asset.balanceInUSD, sum0)] *)
Fixpoint reduce_balanceInUSD (l : list (option AssetResult)) (sum : number)
  : Completion number :=
  match l with
  | [] => Normal sum
  | None :: _ =>
      Throw (TypeError "Cannot read properties of null (reading 'balanceInUSD')")
  | Some asset :: rest => reduce_balanceInUSD rest (add sum (balanceInUSD asset))
  end.

(** What the handler hands to the [res] object of the web framework. *)
Inductive ResponseBody :=
  | json (results : list NetworkResult)
  | send (text : string).

Record HttpResponse := {
  status : Z;
  body : ResponseBody
}.

(** The result a caller of [fetchContractData] sees. *)
Definition completed {A} (c : Completion (option A)) : option A :=
  match c with
  | Normal r => r
  | Throw _ => None
  end.

Section Program.

(** [Math.pow], which the language leaves implementation-approximated. *)
Variable Math_pow : number → number → number.
(** The exports of the address book, by market name. *)
Variable markets : string → option Market.
(** The [ChainId] enumeration of the contract helpers. *)
Variable ChainId : string → option Z.

Definition asset_of (tokenList : gmap string TokenEntry)
    (reservesData : list ReserveData) (reserve : UserReserve)
  : Js (option AssetResult) :=
  match List.find (matches reserve) reservesData with
  | None =>
      console_log ("No reserve data found for " +:+ ur_underlyingAsset reserve) ;;;
      ret None
  | Some reserveData =>
      let scaledBalance := scaledATokenBalance reserve in
      let rawBalance := Z.quot (scaledBalance * liquidityIndex reserveData) (10 ^ 27) in
      let! normalizedBalance :=
        lift (normalizeBalance rawBalance (Some (decimals reserveData))) in
      let! price :=
        lift (normalizeBalance (priceInMarketReferenceCurrency reserveData) (Some 8)) in
      let balance := mul normalizedBalance price in
      let liquidityRateAPR :=
        mul (div (parseFloat_integer (liquidityRate reserveData)) (of_Z (10 ^ 27)))
            (of_Z 100) in
      let liquidityRateAPY :=
        mul (sub (Math_pow
                    (add (of_Z 1) (div (div liquidityRateAPR (of_Z 100)) (of_Z 365)))
                    (of_Z 365))
                 (of_Z 1))
            (of_Z 100) in
      let tokenMetadata :=
        default {| te_name := Some (symbol reserveData);
                   te_symbol := symbol reserveData;
                   te_image_url := Some placeholder_image |}
                (tokenList !! toUpperCase (symbol reserveData)) in
      ret (Some {| a_underlyingAsset := ur_underlyingAsset reserve;
                   a_symbol := symbol reserveData;
                   name := te_name tokenMetadata;
                   tokenBalance := normalizedBalance;
                   priceInUSD := price;
                   balanceInUSD := balance;
                   a_liquidityRate := liquidityRateAPY;
                   image_url := te_image_url tokenMetadata |})
  end.

Definition fetchContractData (io : ChainIO) (chain rpc : string)
  : Js (option NetworkResult) :=
  try_catch
    (let chainKey := "AaveV3" +:+ capitalize chain in
     match markets chainKey with
     | None =>
         throw (TypeError "Cannot read properties of undefined (reading 'UI_POOL_DATA_PROVIDER')")
     | Some market =>
         let poolDataProviderContract :=
           {| uiPoolDataProviderAddress := UI_POOL_DATA_PROVIDER market;
              provider := rpc;
              chainId := ChainId chain |} in
         let! userReserves :=
           lift (getUserReservesHumanized io poolDataProviderContract
                   (POOL_ADDRESSES_PROVIDER market) user) in
         let! reservesData :=
           lift (getReservesHumanized io poolDataProviderContract
                   (POOL_ADDRESSES_PROVIDER market)) in
         let! tokenList := fetchTokenList (token_io io) chain in
         let! promises :=
           map_async (asset_of tokenList reservesData)
             (List.filter has_balance userReserves) in
         let! all := lift (Promise_all promises) in
         if (0 <? length (filter_Boolean all))%nat
         then
           match property networkMetadata chain with
           | None =>
               throw (TypeError "Cannot read properties of undefined (reading 'name')")
           | Some meta =>
               let! total := lift (reduce_balanceInUSD all zero) in
               ret (Some {| network := chain;
                            networkName := nm_name meta;
                            networkImage := nm_image_url meta;
                            assets := filter_Boolean all;
                            totalBalanceUSD := total |})
           end
         else ret None
     end)
    (λ error,
       console_error ("Error fetching contract data for " +:+ chain +:+ ":") error ;;;
       ret None).

(** ** HTTP handler *)

(** [for (const [chain, rpcUrl] of Object.entries(chainProviders))] *)
Fixpoint for_of (io : string → ChainIO) (entries : list (string * string))
    (results : list NetworkResult) : Js (list NetworkResult) :=
  match entries with
  | [] => ret results
  | (chain, rpcUrl) :: rest =>
      let! chainData := fetchContractData (io chain) chain rpcUrl in
      match chainData with
      | Some result => for_of io rest (results ++ [result])
      | None => for_of io rest results
      end
  end.

Definition liquidity_rates (io : string → ChainIO) : Js HttpResponse :=
  try_catch
    (console_log "REQ" ;;;
     let! results := for_of io chainProviders [] in
     ret {| status := 200; body := json results |})
    (λ error,
       console_error "Error in API route:" error ;;;
       ret {| status := 500; body := send "Internal Server Error" |}).

(** What one configured network contributes when its fetch runs on its own
    from the state [w]. *)
Definition alone (io : string → ChainIO) (w : World) (entry : string * string)
  : option NetworkResult :=
  completed
    (fst (fetchContractData (io entry.1) entry.1 entry.2 w)).

End Program.

(** * Vocabulary of the properties *)

(** The outcome of the download and parse of lines 67-82, as a function of
    what the server answers: the symbol-keyed map, or the error thrown. *)
Definition retrieval (io : TokenListIO) (url : string)
  : Completion (gmap string TokenEntry) :=
  match http io url with
  | fetch_rejects reason => Throw (Rejected reason)
  | fetch_responds ok status body =>
      if negb ok
      then Throw (Error ("HTTP error! status: " +:+ pretty status))
      else match body with
           | body_invalid_json => Throw (Error "Unexpected token in JSON")
           | body_json tokenList => buildTokenMap tokenList
           end
  end.

(** The freshness test of line 63 on what the cache holds for a network. *)
Definition fresh (now : Z) (cachedData : option CacheEntry) : bool :=
  match cachedData with
  | Some entry => now - timestamp entry <? CACHE_DURATION
  | None => false
  end.

Definition warning (networkName : string) : ConsoleLine :=
  console_warn_line ("Could not fetch token list for " +:+ networkName +:+
                     ", using fallback or empty list").

(** How an asset of the output relates to the user reserve and the market
    reserve it was computed from. *)
Record derived_from (reserve : UserReserve) (reserveData : ReserveData)
    (a : AssetResult) : Prop := {
  derived_match :
    toLowerCase (underlyingAsset reserveData) =
    toLowerCase (ur_underlyingAsset reserve);
  derived_asset : a_underlyingAsset a = ur_underlyingAsset reserve;
  derived_symbol : a_symbol a = symbol reserveData;
  derived_decimals : 0 ≤ decimals reserveData ≤ 256;
  derived_tokenBalance :
    tokenBalance a =
    of_decimal
      (Z.quot (scaledATokenBalance reserve * liquidityIndex reserveData) (10 ^ 27))
      (decimals reserveData);
  derived_priceInUSD :
    priceInUSD a = of_decimal (priceInMarketReferenceCurrency reserveData) 8;
  derived_balanceInUSD :
    balanceInUSD a = mul (tokenBalance a) (priceInUSD a)
}.

(** One of the two data-provider reads fails, whatever it is asked. *)
Definition rpc_fails (cio : ChainIO) : Prop :=
  (∀ contract addressProvider account,
     ∃ e, getUserReservesHumanized cio contract addressProvider account = Throw e) ∨
  (∀ contract addressProvider,
     ∃ e, getReservesHumanized cio contract addressProvider = Throw e).

(** Two states that hold the same cache entry for a network. *)
Definition same_entry (k : string) (w1 w2 : World) : Prop :=
  tokenListCache w1 !! k = tokenListCache w2 !! k.

(** A computation is confined to a network when the cache entry of that
    network is all it reads of the process state to decide its completion,
    and the only cache entry it may change. *)
Record Confined (n : string) {A} (c : Js A) : Prop := {
  confined_reads :
    ∀ w1 w2, same_entry n w1 w2 →
      fst (c w1) = fst (c w2) ∧ same_entry n (snd (c w1)) (snd (c w2));
  confined_writes :
    ∀ k w, k ≠ n → same_entry k (snd (c w)) w
}.

(** Both data-provider reads succeed, whatever they are asked. *)
Definition answers (cio : ChainIO) (userReserves : list UserReserve)
    (reservesData : list ReserveData) : Prop :=
  (∀ contract addressProvider account,
     getUserReservesHumanized cio contract addressProvider account =
       Normal userReserves) ∧
  (∀ contract addressProvider,
     getReservesHumanized cio contract addressProvider = Normal reservesData).

(** Every market reserve the data provider returns has a liquidity index
    of at least one ray (10^27), the value the index of a reserve starts
    from and never falls below. *)
Definition index_from_one_ray (cio : ChainIO) : Prop :=
  ∀ contract addressProvider reservesData reserveData,
    getReservesHumanized cio contract addressProvider = Normal reservesData →
    reserveData ∈ reservesData →
    10 ^ 27 ≤ liquidityIndex reserveData.

(** The line the catch of [fetchContractData] writes. *)
Definition error_line (chain : string) (error : JsError) : ConsoleLine :=
  console_error_line ("Error fetching contract data for " +:+ chain +:+ ":") error.

(** The line written for a user reserve without market data. *)
Definition diagnostic (reserve : UserReserve) : ConsoleLine :=
  console_log_line ("No reserve data found for " +:+ ur_underlyingAsset reserve).

(** A computation that leaves the cache and the request log as they are and
    only adds lines to the console. *)
Record Quiet {A} (c : Js A) : Prop := {
  quiet_cache : ∀ w, tokenListCache (snd (c w)) = tokenListCache w;
  quiet_requests : ∀ w, requests (snd (c w)) = requests w;
  quiet_console : ∀ w, console w `prefix_of` console (snd (c w))
}.

(** The token-list URLs of the configured networks, in configuration order. *)
Definition token_list_urls : list string :=
  chainProviders.*1 ≫= (λ chain, option_list (property tokenListUrls chain)).

(** The entry [forEach] stores for a token whose symbol is [s]. *)
Definition entry_of (token : TokenJson) (s : string) : TokenEntry :=
  {| te_name := tj_name token; te_symbol := s; te_image_url := tj_logoURI token |}.

End Code.

(** * Scenarios *)

(** The case mappings on ASCII text, which is what the scenarios are
    written in: the letters a-z and A-Z are mapped, every other character
    is left as it is. *)
Definition ascii_toUpperCase (c : ascii) : ascii :=
  let n := N_of_ascii c in
  if ((97 <=? n) && (n <=? 122))%N then ascii_of_N (n - 32) else c.

Definition ascii_toLowerCase (c : ascii) : ascii :=
  let n := N_of_ascii c in
  if ((65 <=? n) && (n <=? 90))%N then ascii_of_N (n + 32) else c.

Fixpoint map_characters (f : ascii → ascii) (s : string) : string :=
  match s with
  | EmptyString => EmptyString
  | String c s' => String (f c) (map_characters f s')
  end.

Definition ascii_text : StringPrototype :=
  {| toUpperCase := map_characters ascii_toUpperCase;
     toLowerCase := map_characters ascii_toLowerCase |}.

(** [Math.pow] for a positive whole exponent, by repeated multiplication. *)
Definition pow_repeated (x y : number) : number :=
  match y with
  | S754_finite false m e => Z.iter (Z.shiftl (Z.pos m) e) (mul x) (of_Z 1)
  | _ => S754_nan
  end.

(** An address book with the six markets (the addresses are illustrative). *)
Definition address_book : list (string * Market) :=
  let market := {| UI_POOL_DATA_PROVIDER := "0x91c0eA31b49B69Ea18607702c5d9aC360bf3dE7d";
                   POOL_ADDRESSES_PROVIDER := "0x2f39d218133AFaB8F2B819B1066c7E434Ad94E9e" |} in
  [ ("AaveV3Ethereum", market); ("AaveV3Polygon", market);
    ("AaveV3Avalanche", market); ("AaveV3Base", market);
    ("AaveV3Arbitrum", market); ("AaveV3Optimism", market) ].

Definition chain_ids : list (string * Z) :=
  [ ("polygon", 137); ("avalanche", 43114); ("optimism", 10); ("base", 8453) ].

Definition usdc_reserve : ReserveData :=
  {| underlyingAsset := "0xa0b86991c6218b36c1d19d4a2e9eb0ce3606eb48";
     symbol := "USDC";
     decimals := 6;
     liquidityIndex := 105 * 10 ^ 25;
     liquidityRate := 3 * 10 ^ 25;
     priceInMarketReferenceCurrency := 100000000 |}.

Definition weth_reserve : ReserveData :=
  {| underlyingAsset := "0xc02aaa39b223fe8d0a0e5c4f27ead9083c756cc2";
     symbol := "WETH";
     decimals := 18;
     liquidityIndex := 102 * 10 ^ 25;
     liquidityRate := 2 * 10 ^ 25;
     priceInMarketReferenceCurrency := 250000000000 |}.

Definition usdc_position : UserReserve :=
  {| ur_underlyingAsset := "0xA0b86991c6218b36c1d19D4a2e9Eb0cE3606eB48";
     scaledATokenBalance := 1000 |}.

Definition weth_position : UserReserve :=
  {| ur_underlyingAsset := "0xC02aaA39b223FE8D0A0e5C4F27eAD9083C756Cc2";
     scaledATokenBalance := 2 * 10 ^ 18 |}.

Definition empty_position : UserReserve :=
  {| ur_underlyingAsset := "0xC02aaA39b223FE8D0A0e5C4F27eAD9083C756Cc2";
     scaledATokenBalance := 0 |}.

(** A position in an asset the market data does not list. *)
Definition dai_position : UserReserve :=
  {| ur_underlyingAsset := "0x6B175474E89094C44Da98b954EedeAC495271d0F";
     scaledATokenBalance := 5 * 10 ^ 18 |}.

Definition usdc_token : TokenJson :=
  {| tj_symbol := Some "usdc";
     tj_name := Some "USDCoin";
     tj_logoURI := Some "https://tokens.example/usdc.png" |}.

Definition token_list_up (t : Z) : TokenListIO :=
  {| now_at_check := t;
     http := λ _, fetch_responds true 200
                    (body_json {| tl_tokens := Some [usdc_token] |});
     now_at_store := t + 250 |}.

Definition token_list_down (t : Z) : TokenListIO :=
  {| now_at_check := t;
     http := λ _, fetch_rejects "ECONNREFUSED";
     now_at_store := t + 250 |}.

Definition rpc_down : ChainIO :=
  {| getUserReservesHumanized := λ _ _ _, Throw (Rejected "could not detect network");
     getReservesHumanized := λ _ _, Throw (Rejected "could not detect network");
     token_io := token_list_up 1700000000000 |}.

Definition rpc_up (positions : list UserReserve) (market : list ReserveData)
  : ChainIO :=
  {| getUserReservesHumanized := λ _ _ _, Normal positions;
     getReservesHumanized := λ _ _, Normal market;
     token_io := token_list_up 1700000000000 |}.

(** Ethereum answers as given, the five other networks are unreachable. *)
Definition ethereum_only (cio : ChainIO) (chain : string) : ChainIO :=
  if String.eqb chain "ethereum" then cio else rpc_down.

Definition boot : World :=
  {| tokenListCache := ∅; console := []; requests := [] |}.

Definition ethereum_rpc : string := "https://eth-mainnet.public.blastapi.io".
Definition ethereum_token_list : string :=
  "https://gateway.ipfs.io/ipns/tokens.uniswap.org".

Definition usdc_map : gmap string TokenEntry :=
  {[ "USDC" := {| te_name := Some "USDCoin";
                  te_symbol := "usdc";
                  te_image_url := Some "https://tokens.example/usdc.png" |} ]}.

(** The scenario of section 8: 1000 scaled units of a 6-decimal asset with a
    liquidity index of 1.05 rays, priced at 1 USD. *)
Definition usdc_asset : AssetResult :=
  {| a_underlyingAsset := "0xA0b86991c6218b36c1d19D4a2e9Eb0cE3606eB48";
     a_symbol := "USDC";
     name := Some "USDCoin";
     tokenBalance := S754_finite false 4842270319348757 (-62);
     priceInUSD := S754_finite false 4503599627370496 (-52);
     balanceInUSD := S754_finite false 4842270319348757 (-62);
     a_liquidityRate := S754_finite false 6857465330182900 (-51);
     image_url := Some "https://tokens.example/usdc.png" |}.

Definition weth_asset : AssetResult :=
  {| a_underlyingAsset := "0xC02aaA39b223FE8D0A0e5C4F27eAD9083C756Cc2";
     a_symbol := "WETH";
     name := Some "WETH";
     tokenBalance := S754_finite false 4593671619917906 (-51);
     priceInUSD := S754_finite false 5497558138880000 (-41);
     balanceInUSD := S754_finite false 5607509301657600 (-40);
     a_liquidityRate := S754_finite false 4548811496623700 (-51);
     image_url := Some placeholder_image |}.

Definition ethereum_result : NetworkResult :=
  {| network := "ethereum";
     networkName := "Ethereum";
     networkImage := "https://raw.githubusercontent.com/trustwallet/assets/master/blockchains/ethereum/info/logo.png";
     assets := [usdc_asset; weth_asset];
     totalBalanceUSD := S754_finite false 5607510456144809 (-40) |}.

(** Two positions that match the market data and one empty position. *)
Definition healthy_io : string → ChainIO :=
  ethereum_only
    (rpc_up [usdc_position; weth_position; empty_position]
            [usdc_reserve; weth_reserve]).

(** A matched position next to one the market data does not list. *)
Definition mixed_io : ChainIO :=
  rpc_up [usdc_position; dai_position] [usdc_reserve; weth_reserve].

(** A cache that holds an entry for ethereum stored at time 1700000000000. *)
Definition cached_world : World :=
  {| tokenListCache :=
       {[ "ethereum" := {| data := usdc_map; timestamp := 1700000000000 |} ]};
     console := [];
     requests := [] |}.

Definition run (io : string → ChainIO) : Completion HttpResponse * World :=
  liquidity_rates (js := ascii_text)
    pow_repeated (property address_book) (property chain_ids) io boot.

Definition fetch_ethereum (cio : ChainIO) : Completion (option NetworkResult) * World :=
  fetchContractData (js := ascii_text)
    pow_repeated (property address_book) (property chain_ids)
    cio "ethereum" ethereum_rpc boot.

(** The market of the sample address book. *)
Definition sample_market : Market :=
  {| UI_POOL_DATA_PROVIDER := "0x91c0eA31b49B69Ea18607702c5d9aC360bf3dE7d";
     POOL_ADDRESSES_PROVIDER := "0x2f39d218133AFaB8F2B819B1066c7E434Ad94E9e" |}.

Definition ethereum_meta : NetworkMeta :=
  {| nm_name := "Ethereum";
     nm_image_url := "https://raw.githubusercontent.com/trustwallet/assets/master/blockchains/ethereum/info/logo.png" |}.

(** A second token with the symbol of [usdc_token] in another case. *)
Definition usdc_token_again : TokenJson :=
  {| tj_symbol := Some "USDC";
     tj_name := Some "USD Coin";
     tj_logoURI := None |}.

(** A token without a symbol. *)
Definition nameless_token : TokenJson :=
  {| tj_symbol := None;
     tj_name := Some "Nameless";
     tj_logoURI := None |}.

(** A server that answers every URL with the given tokens. *)
Definition token_list_of (tokens : list TokenJson) (t : Z) : TokenListIO :=
  {| now_at_check := t;
     http := λ _, fetch_responds true 200 (body_json {| tl_tokens := Some tokens |});
     now_at_store := t + 250 |}.

(** A market reserve with more decimals than ethers formats. *)
Definition wide_reserve : ReserveData :=
  {| underlyingAsset := "0xa0b86991c6218b36c1d19d4a2e9eb0ce3606eb48";
     symbol := "USDC";
     decimals := 300;
     liquidityIndex := 105 * 10 ^ 25;
     liquidityRate := 3 * 10 ^ 25;
     priceInMarketReferenceCurrency := 100000000 |}.

(** A cache with an entry for each of the six networks, stored one second
    before 1700000000000. *)
Definition warm_world : World :=
  {| tokenListCache :=
       list_to_map
         ((λ entry : string * string,
             (entry.1, {| data := usdc_map; timestamp := 1700000000000 - 1000 |}))
            <$> chainProviders);
     console := [];
     requests := [] |}.

(** * Properties *)

Section Laws.

Context {js : StringPrototype}.

(** ** Numbers: a positive decimal never parses to zero *)

Lemma digits2_pos_size p : digits2_pos p = Pos.size p.
Proof. induction p; cbn; congruence. Qed.

Lemma Zdigits2_log2 m : 0 < m → Zdigits2 m = Z.log2 m + 1.
Proof.
  destruct m as [|p|p]; [lia| |lia]. intros _.
  cbn [Zdigits2]. rewrite digits2_pos_size.
  destruct p; cbn [Z.log2 Pos.size]; lia.
Qed.

Lemma Zdigits2_bounds m :
  0 < m → 0 < Zdigits2 m ∧ 2 ^ (Zdigits2 m - 1) ≤ m < 2 ^ Zdigits2 m.
Proof.
  intros Hm. rewrite Zdigits2_log2 by done.
  pose proof (Z.log2_nonneg m). pose proof (Z.log2_spec m Hm).
  replace (Z.log2 m + 1 - 1) with (Z.log2 m) by lia.
  replace (Z.log2 m + 1) with (Z.succ (Z.log2 m)) by lia. lia.
Qed.

Lemma Zdigits2_le_pow2 m k : 0 < m → 2 ^ k ≤ m → k < Zdigits2 m.
Proof.
  intros Hm Hk. rewrite Zdigits2_log2 by done.
  destruct (Z_lt_le_dec k 0); [pose proof (Z.log2_nonneg m); lia|].
  apply Z.log2_le_pow2 in Hk; lia.
Qed.

Lemma shr_1_m mrs : 0 ≤ shr_m mrs → shr_m (shr_1 mrs) = shr_m mrs / 2.
Proof.
  destruct mrs as [m r s]. cbn [shr_m]. intros Hm.
  destruct m as [|[p|p|]|p]; cbn [shr_1 shr_m]; [done| | |done|lia].
  - apply Z.div_unique with 1; lia.
  - apply Z.div_unique with 0; lia.
Qed.

Lemma iter_pos_shr_1_m n mrs :
  0 ≤ shr_m mrs → shr_m (SpecFloat.iter_pos shr_1 n mrs) = shr_m mrs / 2 ^ Zpos n.
Proof.
  revert mrs. induction n as [n IH|n IH|]; intros mrs Hm; cbn [SpecFloat.iter_pos].
  - assert (H1 : 0 ≤ shr_m (shr_1 mrs)).
    { rewrite shr_1_m by done. apply Z.div_pos; lia. }
    assert (H2 : 0 ≤ shr_m (SpecFloat.iter_pos shr_1 n (shr_1 mrs))).
    { rewrite IH by done. apply Z.div_pos; [done|]. apply Z.pow_pos_nonneg; lia. }
    rewrite IH, IH, shr_1_m by done.
    rewrite !Z.div_div by (try apply Z.pow_pos_nonneg; lia).
    f_equal. replace (Z.pos n~1) with (1 + Z.pos n + Z.pos n) by lia.
    rewrite !Z.pow_add_r by lia. lia.
  - assert (H2 : 0 ≤ shr_m (SpecFloat.iter_pos shr_1 n mrs)).
    { rewrite IH by done. apply Z.div_pos; [done|]. apply Z.pow_pos_nonneg; lia. }
    rewrite IH, IH by done.
    rewrite !Z.div_div by (try apply Z.pow_pos_nonneg; lia).
    f_equal. replace (Z.pos n~0) with (Z.pos n + Z.pos n) by lia.
    rewrite !Z.pow_add_r by lia. lia.
  - rewrite shr_1_m by done. done.
Qed.

Lemma shr_record_of_loc_m m l : shr_m (shr_record_of_loc m l) = m.
Proof. by destruct l as [|[]]. Qed.

Lemma shr_fexp_pos m e l :
  0 < m → emin prec emax < Zdigits2 m + e →
  0 < shr_m (fst (shr_fexp prec emax m e l)) ∧
  emin prec emax <
    Zdigits2 (shr_m (fst (shr_fexp prec emax m e l))) + snd (shr_fexp prec emax m e l).
Proof.
  intros Hm Hd. unfold shr_fexp, shr.
  destruct (Zdigits2_bounds m Hm) as (Hdpos & Hlo & Hhi).
  set (n := fexp prec emax (Zdigits2 m + e) - e).
  assert (Hn : n < Zdigits2 m).
  { subst n. unfold fexp, prec. unfold prec in *. lia. }
  destruct n as [|p|p] eqn:Hp; cbn [fst snd]; rewrite ?shr_record_of_loc_m; try done.
  rewrite iter_pos_shr_1_m by (rewrite shr_record_of_loc_m; lia).
  rewrite shr_record_of_loc_m.
  assert (Hge : 2 ^ (Zdigits2 m - 1 - Z.pos p) ≤ m / 2 ^ Z.pos p).
  { apply Z.div_le_lower_bound; [apply Z.pow_pos_nonneg; lia|].
    rewrite <- Z.pow_add_r by lia.
    replace (Z.pos p + (Zdigits2 m - 1 - Z.pos p)) with (Zdigits2 m - 1) by lia.
    done. }
  assert (Hpos : 0 < m / 2 ^ Z.pos p).
  { eapply Z.lt_le_trans; [|exact Hge]. apply Z.pow_pos_nonneg; lia. }
  split; [done|].
  pose proof (Zdigits2_le_pow2 _ _ Hpos Hge). lia.
Qed.

Lemma round_nearest_even_ge m l : m ≤ round_nearest_even m l.
Proof.
  destruct l as [|[]]; cbn [round_nearest_even]; try lia.
  destruct (Z.even m); lia.
Qed.

Lemma Zdigits2_mono m n : 0 < m → m ≤ n → Zdigits2 m ≤ Zdigits2 n.
Proof.
  intros Hm Hmn. rewrite !Zdigits2_log2 by lia.
  pose proof (Z.log2_le_mono m n Hmn). lia.
Qed.

Lemma binary_round_aux_positive mx ex lx :
  0 < mx → emin prec emax < Zdigits2 mx + ex →
  ltb zero (binary_round_aux prec emax false mx ex lx) = true.
Proof.
  intros Hm Hd. unfold binary_round_aux.
  destruct (shr_fexp_pos mx ex lx Hm Hd) as [Hpos1 Hd1].
  destruct (shr_fexp prec emax mx ex lx) as [mrs1 e1]. cbn [fst snd] in *.
  set (m2 := round_nearest_even (shr_m mrs1) (loc_of_shr_record mrs1)).
  assert (Hm2 : shr_m mrs1 ≤ m2) by apply round_nearest_even_ge.
  assert (Hd2 : emin prec emax < Zdigits2 m2 + e1).
  { pose proof (Zdigits2_mono _ _ Hpos1 Hm2). lia. }
  destruct (shr_fexp_pos m2 e1 loc_Exact ltac:(lia) Hd2) as [Hpos3 _].
  destruct (shr_fexp prec emax m2 e1 loc_Exact) as [mrs3 e3]. cbn [fst snd] in *.
  destruct (shr_m mrs3) as [|p|p]; [lia| |lia].
  by destruct (e3 <=? emax - prec).
Qed.

Lemma SFdiv_core_binary_positive p q :
  Z.pos q < 2 ^ 1074 →
  let '(mz, ez, lz) := SFdiv_core_binary prec emax (Z.pos p) 0 (Z.pos q) 0 in
  0 < mz ∧ emin prec emax < Zdigits2 mz + ez.
Proof.
  intros Hq. unfold SFdiv_core_binary.
  destruct (Zdigits2_bounds (Z.pos p) ltac:(lia)) as (Hd1 & Hp1 & Hp2).
  destruct (Zdigits2_bounds (Z.pos q) ltac:(lia)) as (Hd2 & Hq1 & Hq2).
  set (d1 := Zdigits2 (Z.pos p)) in *. set (d2 := Zdigits2 (Z.pos q)) in *.
  set (e' := Z.min (fexp prec emax (d1 + 0 - (d2 + 0))) (0 - 0)).
  assert (He' : emin prec emax ≤ e' ≤ 0).
  { subst e'. unfold fexp, emin, emax, prec. lia. }
  set (m' := match 0 - 0 - e' with
             | 0 => Z.pos p | Z.pos _ => Z.shiftl (Z.pos p) (0 - 0 - e') | Z.neg _ => 0 end).
  assert (Hm' : m' = Z.pos p * 2 ^ (- e')).
  { subst m'. destruct (0 - 0 - e') as [|s|s] eqn:Hs.
    - replace (- e') with 0 by lia. lia.
    - rewrite Z.shiftl_mul_pow2 by lia. f_equal. f_equal. lia.
    - lia. }
  assert (Hge : Z.pos q ≤ m').
  { rewrite Hm'.
    destruct (Z_le_gt_dec (53 + d2 - d1) (- e')) as [Hcase|Hcase].
    - apply Z.le_trans with (2 ^ (d1 - 1) * 2 ^ (- e')).
      + rewrite <- Z.pow_add_r by lia.
        apply Z.le_trans with (2 ^ d2); [lia|].
        apply Z.pow_le_mono_r; lia.
      + apply Z.mul_le_mono_nonneg_r; [apply Z.pow_nonneg; lia | done].
    - assert (e' = -1074).
      { subst e'. unfold fexp, emin, emax, prec in *. lia. }
      replace (- e') with 1074 by lia.
      assert (0 < 2 ^ 1074) by (apply Z.pow_pos_nonneg; lia). nia. }
  pose proof (Z_div_mod m' (Z.pos q) ltac:(lia)) as Hdm.
  change (IntDef.Z.div_eucl m' (Z.pos q)) with (Z.div_eucl m' (Z.pos q)).
  destruct (Z.div_eucl m' (Z.pos q)) as [q0 r]. destruct Hdm as [Heq Hr].
  assert (Hq0 : 0 < q0) by nia.
  split; [done|].
  destruct (Zdigits2_bounds q0 Hq0) as (Hd0 & _). lia.
Qed.

Lemma of_decimal_positive n d :
  0 < n → 0 ≤ d ≤ 256 → ltb zero (of_decimal n d) = true.
Proof.
  intros Hn Hd. unfold of_decimal.
  assert (Hpow : 0 < 10 ^ d < 2 ^ 1074).
  { split; [apply Z.pow_pos_nonneg; lia|].
    apply Z.le_lt_trans with (10 ^ 256); [apply Z.pow_le_mono_r; lia|].
    by vm_compute. }
  destruct n as [|p|p]; [lia| |lia].
  destruct (10 ^ d) as [|q|q]; [lia| |lia].
  cbn [exact SFdiv xorb].
  pose proof (SFdiv_core_binary_positive p q ltac:(lia)) as Hcore.
  destruct (SFdiv_core_binary prec emax (Z.pos p) 0 (Z.pos q) 0) as [[mz ez] lz].
  destruct Hcore as [Hmz Hez].
  by apply binary_round_aux_positive.
Qed.

Lemma binary_round_aux_negative mx ex lx :
  ltb zero (binary_round_aux prec emax true mx ex lx) = false.
Proof.
  unfold binary_round_aux.
  destruct (shr_fexp prec emax mx ex lx) as [mrs1 e1].
  destruct (shr_fexp prec emax _ e1 loc_Exact) as [mrs3 e3].
  destruct (shr_m mrs3) as [|p|p]; [done| |done].
  by destruct (e3 <=? emax - prec).
Qed.

Lemma binary_round_positive mx :
  ltb zero (binary_round prec emax false mx 0) = true.
Proof.
  unfold binary_round.
  destruct (shl_align mx 0 (fexp prec emax (Z.pos (digits2_pos mx) + 0)))
    as [mz ez] eqn:Hshl.
  apply binary_round_aux_positive; [done|].
  assert (Hez : emin prec emax ≤ ez).
  { unfold shl_align in Hshl.
    destruct (fexp prec emax (Z.pos (digits2_pos mx) + 0) - 0) eqn:Hd;
      injection Hshl as <- <-; unfold fexp, emin, emax, prec in *; lia. }
  destruct (Zdigits2_bounds (Z.pos mz)) as [Hpos _]; lia.
Qed.

Lemma ltb_zero_of_Z z : ltb zero (of_Z z) = (0 <? z).
Proof.
  destruct z as [|p|p]; [done| |].
  - apply binary_round_positive.
  - unfold of_Z, binary_normalize, binary_round.
    destruct (shl_align _ _ _) as [mz ez]. apply binary_round_aux_negative.
Qed.

Lemma has_balance_spec reserve :
  has_balance reserve = true ↔ 0 < scaledATokenBalance reserve.
Proof.
  unfold has_balance, parseFloat_integer. rewrite ltb_zero_of_Z.
  apply Z.ltb_lt.
Qed.

Lemma of_decimal_zero d : 0 ≤ d → of_decimal 0 d = zero.
Proof.
  intros Hd. unfold of_decimal.
  assert (Hpow : 0 < 10 ^ d) by (apply Z.pow_pos_nonneg; lia).
  destruct (10 ^ d) as [|q|q]; [lia| |lia]. done.
Qed.


(** ** Token list cache *)

Lemma fetchTokenList_fresh io networkName w entry :
  tokenListCache w !! networkName = Some entry →
  now_at_check io - timestamp entry < CACHE_DURATION →
  fetchTokenList io networkName w = (Normal (data entry), w).
Proof.
  intros Hget Hfresh.
  unfold fetchTokenList, try_catch, bind, tokenListCache_get.
  rewrite Hget.
  apply Z.ltb_lt in Hfresh. rewrite Hfresh. reflexivity.
Qed.

Lemma fetchTokenList_stale io networkName w url :
  fresh (now_at_check io) (tokenListCache w !! networkName) = false →
  property tokenListUrls networkName = Some url →
  fetchTokenList io networkName w =
    match retrieval io url with
    | Normal tokenMap =>
        (Normal tokenMap,
         stored networkName {| data := tokenMap; timestamp := now_at_store io |}
           (requested url w))
    | Throw _ => (Normal ∅, logged (warning networkName) (requested url w))
    end.
Proof.
  intros Hstale Hurl.
  unfold fetchTokenList, try_catch, bind, tokenListCache_get.
  assert (Hmiss :
    match tokenListCache w !! networkName with
    | Some entry =>
        if now_at_check io - timestamp entry <? CACHE_DURATION
        then Some (data entry) else None
    | None => None
    end = None).
  { destruct (tokenListCache w !! networkName) as [entry|]; [|done].
    cbn [fresh] in Hstale. by rewrite Hstale. }
  rewrite Hmiss, Hurl. unfold fetch, retrieval.
  destruct (http io url) as [reason | ok st bd]; [done|].
  destruct ok; [|done]. cbn [negb response_ok].
  unfold response_json. cbn [response_body].
  destruct bd as [|tokenList]; [done|].
  unfold ret, lift.
  destruct (buildTokenMap tokenList); done.
Qed.

Lemma fetchTokenList_no_url io networkName w :
  fresh (now_at_check io) (tokenListCache w !! networkName) = false →
  property tokenListUrls networkName = None →
  fetchTokenList io networkName w = (Normal ∅, logged (warning networkName) w).
Proof.
  intros Hstale Hurl.
  unfold fetchTokenList, try_catch, bind, tokenListCache_get.
  destruct (tokenListCache w !! networkName) as [entry|].
  - cbn [fresh] in Hstale. rewrite Hstale, Hurl. done.
  - by rewrite Hurl.
Qed.

Lemma fetchTokenList_Normal io networkName w :
  ∃ tokenMap w', fetchTokenList io networkName w = (Normal tokenMap, w').
Proof.
  destruct (fresh (now_at_check io) (tokenListCache w !! networkName)) eqn:Hfresh.
  - destruct (tokenListCache w !! networkName) as [entry|] eqn:Hget; [|done].
    cbn [fresh] in Hfresh. apply Z.ltb_lt in Hfresh.
    rewrite (fetchTokenList_fresh _ _ _ entry) by done. eauto.
  - destruct (property tokenListUrls networkName) as [url|] eqn:Hurl.
    + rewrite (fetchTokenList_stale _ _ _ url) by done.
      destruct (retrieval io url); eauto.
    + rewrite fetchTokenList_no_url by done. eauto.
Qed.

(** C6: a fetch or parse error in the token-list retrieval is caught, a
    warning is logged and the caller receives an empty map; in no case does
    fetchTokenList complete by throwing. *)
Theorem fetchTokenList_catches_errors io networkName w :
  (∃ tokenMap w', fetchTokenList io networkName w = (Normal tokenMap, w')) ∧
  (∀ url error,
     fresh (now_at_check io) (tokenListCache w !! networkName) = false →
     property tokenListUrls networkName = Some url →
     retrieval io url = Throw error →
     fetchTokenList io networkName w =
       (Normal ∅, logged (warning networkName) (requested url w))) ∧
  (fresh (now_at_check io) (tokenListCache w !! networkName) = false →
   property tokenListUrls networkName = None →
   fetchTokenList io networkName w =
     (Normal ∅, logged (warning networkName) w)).
Proof.
  split; [apply fetchTokenList_Normal|]. split.
  - intros url error Hstale Hurl Hfail.
    rewrite (fetchTokenList_stale _ _ _ url) by done. by rewrite Hfail.
  - apply fetchTokenList_no_url.
Qed.

(** C5, amended: after a call that fetched a network's token list
    successfully, a second call whose clock reading is less than 24 hours
    past the stored timestamp returns the same map and leaves the process
    state as it was (no request is sent); a second call at or past 24 hours
    sends a new request, and when that retrieval succeeds its map is
    returned and replaces the cached entry, while when it fails the empty
    map is returned and the cache is left as it was. *)
Theorem fetchTokenList_second_call io1 io2 networkName url w tokenMap :
  property tokenListUrls networkName = Some url →
  fresh (now_at_check io1) (tokenListCache w !! networkName) = false →
  retrieval io1 url = Normal tokenMap →
  let w1 := snd (fetchTokenList io1 networkName w) in
  let second := fetchTokenList io2 networkName w1 in
  fst (fetchTokenList io1 networkName w) = Normal tokenMap ∧
  (now_at_check io2 - now_at_store io1 < CACHE_DURATION →
   second = (Normal tokenMap, w1)) ∧
  (CACHE_DURATION ≤ now_at_check io2 - now_at_store io1 →
   requests (snd second) = (requests w1 ++ [url])%list ∧
   (∀ tokenMap2, retrieval io2 url = Normal tokenMap2 →
      fst second = Normal tokenMap2 ∧
      tokenListCache (snd second) !! networkName =
        Some {| data := tokenMap2; timestamp := now_at_store io2 |}) ∧
   (∀ error, retrieval io2 url = Throw error →
      fst second = Normal ∅ ∧
      tokenListCache (snd second) = tokenListCache w1)).
Proof.
  intros Hurl Hstale Hok w1 second. subst second w1.
  rewrite (fetchTokenList_stale io1 _ _ url) by done. rewrite Hok.
  cbn [fst snd].
  set (w1 := stored _ _ _).
  assert (Hget : tokenListCache w1 !! networkName =
                 Some {| data := tokenMap; timestamp := now_at_store io1 |}).
  { subst w1. cbn [stored tokenListCache]. apply lookup_insert_eq. }
  split; [done|]. split.
  - intros Hwithin.
    by rewrite (fetchTokenList_fresh io2 _ _ _ Hget).
  - intros Hpast.
    assert (Hstale2 : fresh (now_at_check io2) (tokenListCache w1 !! networkName) = false).
    { rewrite Hget. cbn [fresh timestamp]. by apply Z.ltb_ge. }
    rewrite (fetchTokenList_stale io2 _ _ url) by done.
    destruct (retrieval io2 url) as [tokenMap2|error2]; cbn [fst snd].
    + split; [done|]. split; [|intros ? [=]].
      intros ? [= <-]. split; [done|].
      cbn [stored tokenListCache]. apply lookup_insert_eq.
    + split; [done|]. split; [intros ? [=]|]. done.
Qed.

(** C10: when the retrieval fails, the empty map is returned and the cache
    is exactly what it was before the call; the next call for the same
    network, at a clock reading that is not earlier, sends a new request and
    its outcome is that of the new retrieval. *)
Theorem failed_fetch_is_not_cached io io' networkName url w error :
  property tokenListUrls networkName = Some url →
  fresh (now_at_check io) (tokenListCache w !! networkName) = false →
  retrieval io url = Throw error →
  let w1 := snd (fetchTokenList io networkName w) in
  fst (fetchTokenList io networkName w) = Normal ∅ ∧
  tokenListCache w1 = tokenListCache w ∧
  (now_at_check io ≤ now_at_check io' →
   fetchTokenList io' networkName w1 =
     match retrieval io' url with
     | Normal tokenMap =>
         (Normal tokenMap,
          stored networkName {| data := tokenMap; timestamp := now_at_store io' |}
            (requested url w1))
     | Throw _ => (Normal ∅, logged (warning networkName) (requested url w1))
     end).
Proof.
  intros Hurl Hstale Hfail w1. subst w1.
  rewrite (fetchTokenList_stale io _ _ url) by done. rewrite Hfail.
  cbn [fst snd]. split; [done|]. split; [done|].
  intros Hclock. apply fetchTokenList_stale; [|done].
  cbn [logged requested tokenListCache].
  destruct (tokenListCache w !! networkName) as [entry|]; [|done].
  cbn [fresh] in *. apply Z.ltb_ge. apply Z.ltb_ge in Hstale. lia.
Qed.

(** ** Per-network fetcher *)

Lemma formatUnits_Normal value decimals :
  0 ≤ decimals ≤ 256 →
  formatUnits value decimals =
    Normal {| dec_digits := value; dec_places := decimals |}.
Proof.
  intros [H0 H256]. unfold formatUnits.
  apply Z.leb_le in H0, H256. by rewrite H0, H256.
Qed.

Lemma formatUnits_inv value decimals s :
  formatUnits value decimals = Normal s →
  0 ≤ decimals ≤ 256 ∧ s = {| dec_digits := value; dec_places := decimals |}.
Proof.
  unfold formatUnits.
  destruct (0 <=? decimals) eqn:H0; [|done].
  destruct (decimals <=? 256) eqn:H256; [|done].
  intros [= <-]. apply Z.leb_le in H0, H256. done.
Qed.

Lemma normalizeBalance_Normal balance decimals :
  0 ≤ decimals ≤ 256 →
  normalizeBalance balance (Some decimals) = Normal (of_decimal balance decimals).
Proof.
  intros Hd. unfold normalizeBalance.
  change (default 18 (Some decimals)) with decimals.
  by rewrite formatUnits_Normal.
Qed.

Lemma normalizeBalance_inv balance decimals x :
  normalizeBalance balance (Some decimals) = Normal x →
  0 ≤ decimals ≤ 256 ∧ x = of_decimal balance decimals.
Proof.
  unfold normalizeBalance.
  change (default 18 (Some decimals)) with decimals.
  destruct (formatUnits balance decimals) as [s|] eqn:Hs; cbn beta iota;
    [|intros [=]].
  apply formatUnits_inv in Hs as [Hd ->]. unfold parseFloat. cbn [dec_digits dec_places].
  by intros [= <-].
Qed.

Lemma find_eqb_Some {A} (key : A → string) (k : string) (l : list A) (x : A) :
  List.find (λ r, String.eqb (key r) k) l = Some x → x ∈ l ∧ key x = k.
Proof.
  intros H. apply List.find_some in H as [Hin Heq].
  split; [by apply list_elem_of_In | by apply String.eqb_eq].
Qed.

Lemma map_async_elem {A B} (f : A → Js B) (l : list A) w rs w' :
  map_async f l w = (Normal rs, w') →
  ∀ c, c ∈ rs → ∃ x w1 w2, x ∈ l ∧ f x w1 = (c, w2).
Proof.
  revert w rs w'. induction l as [|x l IH]; intros w rs w' Hrun c Hc.
  - cbn in Hrun. injection Hrun as <- <-. by apply elem_of_nil in Hc.
  - cbn [map_async] in Hrun.
    destruct (f x w) as [r w1] eqn:Hfx.
    destruct (map_async f l w1) as [[rs1|e] w2] eqn:Hrest; [|done].
    injection Hrun as <- <-.
    apply elem_of_cons in Hc as [-> | Hc].
    + exists x, w, w1. split; [apply list_elem_of_here | done].
    + destruct (IH _ _ _ Hrest c Hc) as (y & wa & wb & Hy & Hfy).
      exists y, wa, wb. split; [by apply list_elem_of_further | done].
Qed.

Lemma map_async_Normal {A B} (f : A → Js B) (l : list A) w :
  ∃ rs w', map_async f l w = (Normal rs, w').
Proof.
  revert w. induction l as [|x l IH]; intros w; cbn [map_async].
  - by eexists _, _.
  - destruct (f x w) as [r w1].
    destruct (IH w1) as (rs & w2 & ->). by eexists _, _.
Qed.

Lemma Promise_all_elem {B} (promises : list (Completion B)) (values : list B) :
  Promise_all promises = Normal values →
  ∀ v, v ∈ values → Normal v ∈ promises.
Proof.
  revert values. induction promises as [|[b|e] ps IH]; intros vs Hall v Hv.
  - injection Hall as <-. by apply elem_of_nil in Hv.
  - cbn [Promise_all] in Hall.
    destruct (Promise_all ps) as [bs|]; [|done].
    injection Hall as <-.
    apply elem_of_cons in Hv as [-> | Hv];
      [apply list_elem_of_here | apply list_elem_of_further; eauto].
  - done.
Qed.

Lemma elem_of_filter_Boolean {A} (l : list (option A)) (a : A) :
  a ∈ filter_Boolean l ↔ Some a ∈ l.
Proof.
  unfold filter_Boolean. rewrite list_elem_of_omap. split.
  - intros (x & Hx & Hid). cbn in Hid. by subst.
  - intros H. by exists (Some a).
Qed.

Lemma map_async_mem {A B} (f : A → Js B) (l : list A) w rs w' x :
  map_async f l w = (Normal rs, w') → x ∈ l → ∃ w1, fst (f x w1) ∈ rs.
Proof.
  revert w rs w'. induction l as [|y l IH]; intros w rs w' Hrun Hx.
  - by apply elem_of_nil in Hx.
  - cbn [map_async] in Hrun.
    destruct (f y w) as [r w1] eqn:Hfy.
    destruct (map_async f l w1) as [[rs1|e] w2] eqn:Hrest; [|done].
    injection Hrun as <- <-.
    apply elem_of_cons in Hx as [-> | Hx].
    + exists w. rewrite Hfy. apply list_elem_of_here.
    + destruct (IH _ _ _ Hrest Hx) as [wa Hwa].
      exists wa. by apply list_elem_of_further.
Qed.

Lemma Promise_all_mem {B} (promises : list (Completion B)) (values : list B) v :
  Promise_all promises = Normal values → Normal v ∈ promises → v ∈ values.
Proof.
  revert values. induction promises as [|[b|e] ps IH]; intros vs Hall Hv.
  - by apply elem_of_nil in Hv.
  - cbn [Promise_all] in Hall.
    destruct (Promise_all ps) as [bs|]; [|done].
    injection Hall as <-.
    apply elem_of_cons in Hv as [[= ->] | Hv];
      [apply list_elem_of_here | apply list_elem_of_further; eauto].
  - done.
Qed.

(** ** Isolation of the networks *)

Lemma Confined_ret n {A} (a : A) : Confined n (ret a).
Proof. by split. Qed.

Lemma Confined_throw n {A} (e : JsError) : Confined n (@throw A e).
Proof. by split. Qed.

Lemma Confined_lift n {A} (c : Completion A) : Confined n (lift c).
Proof. by split. Qed.

Lemma Confined_console_write n line : Confined n (console_write line).
Proof. by split. Qed.

Lemma Confined_get n : Confined n (tokenListCache_get n).
Proof.
  split; [|done]. intros w1 w2 Hsame. unfold tokenListCache_get. cbn [fst snd].
  split; [by rewrite Hsame | done].
Qed.

Lemma Confined_set n entry : Confined n (tokenListCache_set n entry).
Proof.
  split.
  - intros w1 w2 _. split; [done|].
    unfold same_entry, tokenListCache_set, stored. cbn [snd tokenListCache].
    by rewrite !lookup_insert_eq.
  - intros k w Hk.
    unfold same_entry, tokenListCache_set, stored. cbn [snd tokenListCache].
    by rewrite lookup_insert_ne.
Qed.

Lemma Confined_fetch n io url : Confined n (fetch io url).
Proof.
  destruct url as [u|]; [|apply Confined_throw].
  unfold fetch. split.
  - intros w1 w2 Hsame. by destruct (http io u).
  - intros k w _. by destruct (http io u).
Qed.

Lemma Confined_bind n {A B} (c : Js A) (k : A → Js B) :
  Confined n c → (∀ a, Confined n (k a)) → Confined n (bind c k).
Proof.
  intros [Hr Hw] Hk. split.
  - intros w1 w2 Hsame. unfold bind.
    destruct (Hr w1 w2 Hsame) as [Hfst Hsnd].
    destruct (c w1) as [[a1|e1] w1'], (c w2) as [[a2|e2] w2'];
      cbn [fst snd] in *; try done.
    + injection Hfst as <-. by apply (Hk a1).
    + by injection Hfst as <-.
  - intros key w Hkey. unfold bind.
    specialize (Hw key w Hkey).
    destruct (c w) as [[a|e] w1]; cbn [fst snd] in *; [|done].
    pose proof (confined_writes _ _ (Hk a) key w1 Hkey) as Hw1.
    unfold same_entry in *. congruence.
Qed.

Lemma Confined_try_catch n {A} (c : Js A) (h : JsError → Js A) :
  Confined n c → (∀ e, Confined n (h e)) → Confined n (try_catch c h).
Proof.
  intros [Hr Hw] Hh. split.
  - intros w1 w2 Hsame. unfold try_catch.
    destruct (Hr w1 w2 Hsame) as [Hfst Hsnd].
    destruct (c w1) as [[a1|e1] w1'], (c w2) as [[a2|e2] w2'];
      cbn [fst snd] in *; try done.
    injection Hfst as <-. by apply (Hh e1).
  - intros key w Hkey. unfold try_catch.
    specialize (Hw key w Hkey).
    destruct (c w) as [[a|e] w1]; cbn [fst snd] in *; [done|].
    pose proof (confined_writes _ _ (Hh e) key w1 Hkey) as Hw1.
    unfold same_entry in *. congruence.
Qed.

Lemma Confined_map_async n {A B} (f : A → Js B) (l : list A) :
  (∀ x, Confined n (f x)) → Confined n (map_async f l).
Proof.
  intros Hf. induction l as [|x l [IHr IHw]]; [apply Confined_ret|].
  split.
  - intros w1 w2 Hsame. cbn [map_async].
    destruct (confined_reads _ _ (Hf x) w1 w2 Hsame) as [Hfst Hsnd].
    destruct (f x w1) as [r1 w1'], (f x w2) as [r2 w2']. cbn [fst snd] in *.
    subst r2. destruct (IHr w1' w2' Hsnd) as [Hfst' Hsnd'].
    destruct (map_async f l w1') as [[rs1|e1] w1''],
             (map_async f l w2') as [[rs2|e2] w2''];
      cbn [fst snd] in *; try done.
    by injection Hfst' as <-.
  - intros key w Hkey. cbn [map_async].
    pose proof (confined_writes _ _ (Hf x) key w Hkey) as Hw1.
    destruct (f x w) as [r w1]. cbn [fst snd] in *.
    specialize (IHw key w1 Hkey).
    destruct (map_async f l w1) as [[rs|e] w2]; cbn [fst snd] in *;
      unfold same_entry in *; congruence.
Qed.

Lemma Confined_response_json n response : Confined n (response_json response).
Proof. unfold response_json. destruct (response_body response); by split. Qed.

Create HintDb confined.
#[local] Hint Resolve Confined_ret Confined_throw Confined_lift
  Confined_console_write Confined_get Confined_set Confined_fetch
  Confined_response_json : confined.

(** One step of a confinement proof: a combinator, or a case analysis on
    the value the computation branches on. *)
Ltac confined_step :=
  lazymatch goal with
  | |- Confined _ (bind _ _) => apply Confined_bind; [|intros ?]
  | |- Confined _ (try_catch _ _) => apply Confined_try_catch; [|intros ?]
  | |- Confined _ (map_async _ _) => apply Confined_map_async; intros ?
  | |- Confined _ (match ?x with _ => _ end) => destruct x
  | |- Confined _ (console_log _) => apply Confined_console_write
  | |- Confined _ (console_warn _) => apply Confined_console_write
  | |- Confined _ (console_error _ _) => apply Confined_console_write
  | |- _ => solve [auto with confined]
  end.

Lemma Confined_fetchTokenList io networkName :
  Confined networkName (fetchTokenList io networkName).
Proof. unfold fetchTokenList. cbv zeta. repeat confined_step. Qed.

Section Properties.

Variable Math_pow : number → number → number.
Variable markets : string → option Market.
Variable ChainId : string → option Z.

Lemma asset_of_Some tokenList reservesData reserve a w w' :
  asset_of Math_pow tokenList reservesData reserve w = (Normal (Some a), w') →
  ∃ reserveData,
    reserveData ∈ reservesData ∧ derived_from reserve reserveData a ∧
    name a = te_name
      (default {| te_name := Some (symbol reserveData);
                  te_symbol := symbol reserveData;
                  te_image_url := Some placeholder_image |}
               (tokenList !! toUpperCase (symbol reserveData))) ∧
    w' = w.
Proof.
  unfold asset_of.
  destruct (List.find _ reservesData) as [reserveData|] eqn:Hfind.
  - unfold matches in Hfind. apply (find_eqb_Some (λ r, toLowerCase (underlyingAsset r))) in Hfind
      as [Hin Hmatch].
    unfold bind, lift, ret.
    destruct (normalizeBalance _ (Some (decimals reserveData))) as [nb|] eqn:Hnb;
      [|done].
    destruct (normalizeBalance _ (Some 8)) as [pr|] eqn:Hpr; [|done].
    apply normalizeBalance_inv in Hnb as [Hd ->].
    apply normalizeBalance_inv in Hpr as [_ ->].
    intros [= <- <-]. exists reserveData. split; [done|].
    split; [by constructor | done].
  - unfold bind, console_log, console_write, ret. intros [=].
Qed.


Lemma reduce_balanceInUSD_Normal all sum total :
  reduce_balanceInUSD all sum = Normal total →
  all = Some <$> filter_Boolean all ∧
  total = fold_left (λ s a, add s (balanceInUSD a)) (filter_Boolean all) sum.
Proof.
  revert sum. induction all as [|[a|] all IH]; intros sum Hsum.
  - by injection Hsum as <-.
  - cbn [reduce_balanceInUSD] in Hsum. apply IH in Hsum as [Hall ->].
    split; [|done]. unfold filter_Boolean in *. cbn. by f_equal.
  - done.
Qed.

(** The steps behind a network result: every one of them completed
    normally. *)
Lemma fetchContractData_Some_inv io chain rpc w nr w' :
  fetchContractData Math_pow markets ChainId io chain rpc w = (Normal (Some nr), w') →
  ∃ market userReserves reservesData tokenList w2 promises w3 all,
    markets ("AaveV3" +:+ capitalize chain) = Some market ∧
    getUserReservesHumanized io
      {| uiPoolDataProviderAddress := UI_POOL_DATA_PROVIDER market;
         provider := rpc; chainId := ChainId chain |}
      (POOL_ADDRESSES_PROVIDER market) user = Normal userReserves ∧
    getReservesHumanized io
      {| uiPoolDataProviderAddress := UI_POOL_DATA_PROVIDER market;
         provider := rpc; chainId := ChainId chain |}
      (POOL_ADDRESSES_PROVIDER market) = Normal reservesData ∧
    fetchTokenList (token_io io) chain w = (Normal tokenList, w2) ∧
    map_async (asset_of Math_pow tokenList reservesData)
      (List.filter has_balance userReserves) w2 =
      (Normal promises, w3) ∧
    Promise_all promises = Normal all ∧
    reduce_balanceInUSD all zero = Normal (totalBalanceUSD nr) ∧
    assets nr = filter_Boolean all ∧
    assets nr ≠ [] ∧
    network nr = chain.
Proof.
  unfold fetchContractData, try_catch.
  match goal with |- context [match ?b w with _ => _ end] =>
    destruct (b w) as [[r|e] w1] eqn:Hbody end.
  2:{ unfold bind, console_error, console_write, ret. intros [=]. }
  intros [= -> ->]. cbv zeta in Hbody.
  destruct (markets _) as [market|] eqn:Hmarket; [|done].
  unfold bind at 1 in Hbody. unfold lift at 1 in Hbody.
  destruct (getUserReservesHumanized _ _ _ _) as [userReserves|] eqn:Huser; [|done].
  unfold bind at 1 in Hbody. unfold lift at 1 in Hbody.
  destruct (getReservesHumanized _ _ _) as [reservesData|] eqn:Hreserves; [|done].
  unfold bind at 1 in Hbody.
  destruct (fetchTokenList_Normal (token_io io) chain w) as (tokenList & w2 & Htl).
  rewrite Htl in Hbody.
  unfold bind at 1 in Hbody.
  match type of Hbody with context [map_async ?f ?l w2] =>
    destruct (map_async_Normal f l w2) as (promises & w3 & Hmap) end.
  rewrite Hmap in Hbody.
  unfold bind at 1 in Hbody. unfold lift at 1 in Hbody.
  destruct (Promise_all promises) as [all|] eqn:Hall; [|done].
  destruct (0 <? length (filter_Boolean all))%nat eqn:Hlen; [|done].
  destruct (property networkMetadata chain) as [meta|]; [|done].
  unfold bind, lift, ret in Hbody.
  destruct (reduce_balanceInUSD all zero) as [total|] eqn:Hsum; [|done].
  injection Hbody as <- <-. cbn [network assets totalBalanceUSD].
  exists market, userReserves, reservesData, tokenList, w2, promises, w3, all.
  repeat (split; [done|]). split; [|done].
  intros Hnil. by rewrite Hnil in Hlen.
Qed.

Lemma fetchContractData_Some io chain rpc w nr w' :
  fetchContractData Math_pow markets ChainId io chain rpc w = (Normal (Some nr), w') →
  network nr = chain ∧
  assets nr ≠ [] ∧
  (∀ a, a ∈ assets nr →
     ∃ reserve reserveData,
       0 < scaledATokenBalance reserve ∧ derived_from reserve reserveData a) ∧
  totalBalanceUSD nr =
    fold_left (λ s a, add s (balanceInUSD a)) (assets nr) zero.
Proof.
  intros Hrun.
  destruct (fetchContractData_Some_inv _ _ _ _ _ _ Hrun)
    as (market & userReserves & reservesData & tokenList & w2 & promises & w3 & all &
        _ & _ & _ & _ & Hmap & Hall & Hsum & Hassets & Hne & Hnet).
  split; [done|]. split; [done|]. rewrite Hassets. split.
  - intros a Ha. apply elem_of_filter_Boolean in Ha.
    apply (Promise_all_elem _ _ Hall) in Ha.
    destruct (map_async_elem _ _ _ _ _ Hmap _ Ha) as (reserve & wa & wb & Hin & Hone).
    apply list_elem_of_In, List.filter_In in Hin as [_ Hpos].
    apply has_balance_spec in Hpos.
    apply asset_of_Some in Hone as (reserveData & _ & Hderived & _).
    by exists reserve, reserveData.
  - by apply reduce_balanceInUSD_Normal in Hsum as [_ ->].
Qed.

Lemma fetchContractData_Normal io chain rpc w :
  ∃ r w', fetchContractData Math_pow markets ChainId io chain rpc w = (Normal r, w').
Proof.
  unfold fetchContractData, try_catch.
  match goal with |- context [match ?b w with _ => _ end] =>
    destruct (b w) as [[r|e] w1] end; by eexists _, _.
Qed.

Lemma for_of_results io entries results w rs w' :
  for_of Math_pow markets ChainId io entries results w = (Normal rs, w') →
  ∀ nr, nr ∈ rs →
    nr ∈ results ∨
    ∃ chain rpc w1 w2,
      (chain, rpc) ∈ entries ∧
      fetchContractData Math_pow markets ChainId (io chain) chain rpc w1 =
        (Normal (Some nr), w2).
Proof.
  revert results w. induction entries as [|[chain rpc] entries IH];
    intros results w Hrun nr Hnr.
  - injection Hrun as <- <-. by left.
  - cbn [for_of] in Hrun. unfold bind at 1 in Hrun.
    destruct (fetchContractData_Normal (io chain) chain rpc w) as (r & w1 & Hfetch).
    rewrite Hfetch in Hrun.
    destruct r as [result|].
    + destruct (IH _ _ Hrun nr Hnr) as [Hold | (c & u & wa & wb & Hin & Hc)].
      * apply elem_of_app in Hold as [Hold | Hnew]; [by left|].
        apply list_elem_of_singleton in Hnew as ->. right.
        exists chain, rpc, w, w1. split; [apply list_elem_of_here | done].
      * right. exists c, u, wa, wb. split; [by apply list_elem_of_further | done].
    + destruct (IH _ _ Hrun nr Hnr) as [Hold | (c & u & wa & wb & Hin & Hc)].
      * by left.
      * right. exists c, u, wa, wb. split; [by apply list_elem_of_further | done].
Qed.

Lemma for_of_Normal io entries results w :
  ∃ rs w', for_of Math_pow markets ChainId io entries results w = (Normal rs, w').
Proof.
  revert results w. induction entries as [|[chain rpc] entries IH]; intros results w.
  - by eexists _, _.
  - cbn [for_of]. unfold bind at 1.
    destruct (fetchContractData_Normal (io chain) chain rpc w) as (r & w1 & ->).
    destruct r; apply IH.
Qed.

Lemma liquidity_rates_200 io w :
  ∃ results w',
    liquidity_rates Math_pow markets ChainId io w =
      (Normal {| status := 200; body := json results |}, w') ∧
    for_of Math_pow markets ChainId io chainProviders []
      (logged (console_log_line "REQ") w) = (Normal results, w').
Proof.
  unfold liquidity_rates, try_catch, bind at 1, console_log, console_write.
  destruct (for_of_Normal io chainProviders [] (logged (console_log_line "REQ") w))
    as (results & w' & Hloop).
  exists results, w'. unfold bind, ret. by rewrite Hloop.
Qed.

Lemma response_assets io w resp w' results nr a :
  liquidity_rates Math_pow markets ChainId io w = (Normal resp, w') →
  body resp = json results →
  nr ∈ results → a ∈ assets nr →
  ∃ reserve reserveData,
    0 < scaledATokenBalance reserve ∧ derived_from reserve reserveData a.
Proof.
  intros Hrun Hbody Hnr Ha.
  destruct (liquidity_rates_200 io w) as (results' & w'' & Hresp & Hloop).
  rewrite Hresp in Hrun. injection Hrun as <- <-.
  cbn [body] in Hbody. injection Hbody as ->.
  destruct (for_of_results _ _ _ _ _ _ Hloop nr Hnr)
    as [Hnil | (chain & rpc & w1 & w2 & _ & Hfetch)].
  - by apply elem_of_nil in Hnil.
  - apply fetchContractData_Some in Hfetch as (_ & _ & Hassets & _). eauto.
Qed.

(** Where an asset of the response comes from: a user reserve with a
    positive scaled balance, and a market reserve of the list the data
    provider returned for the network. *)
Lemma response_assets_read io w resp w' results nr a :
  liquidity_rates Math_pow markets ChainId io w = (Normal resp, w') →
  body resp = json results →
  nr ∈ results → a ∈ assets nr →
  ∃ chain contract addressProvider reservesData reserve reserveData,
    getReservesHumanized (io chain) contract addressProvider = Normal reservesData ∧
    reserveData ∈ reservesData ∧
    0 < scaledATokenBalance reserve ∧
    derived_from reserve reserveData a.
Proof.
  intros Hrun Hbody Hnr Ha.
  destruct (liquidity_rates_200 io w) as (results' & w'' & Hresp & Hloop).
  rewrite Hresp in Hrun. injection Hrun as <- <-.
  cbn [body] in Hbody. injection Hbody as ->.
  destruct (for_of_results _ _ _ _ _ _ Hloop nr Hnr)
    as [Hnil | (chain & rpc & w1 & w2 & _ & Hfetch)].
  { by apply elem_of_nil in Hnil. }
  destruct (fetchContractData_Some_inv _ _ _ _ _ _ Hfetch)
    as (market & userReserves & reservesData & tokenList & w3 & promises & w4 & all &
        _ & _ & Hreserves & _ & Hmap & Hall & _ & Hassets & _ & _).
  rewrite Hassets in Ha. apply elem_of_filter_Boolean in Ha.
  apply (Promise_all_elem _ _ Hall) in Ha.
  destruct (map_async_elem _ _ _ _ _ Hmap _ Ha) as (reserve & wa & wb & Hin & Hone).
  apply list_elem_of_In, List.filter_In in Hin as [_ Hpos].
  apply has_balance_spec in Hpos.
  apply asset_of_Some in Hone as (reserveData & Hmem & Hderived & _).
  by eexists chain, _, _, reservesData, reserve, reserveData.
Qed.

(** C4: for every asset of every network in the body of the HTTP response,
    balanceInUSD is the binary64 product of tokenBalance and priceInUSD. *)
Theorem response_balanceInUSD_is_product io w resp w' results nr a :
  liquidity_rates Math_pow markets ChainId io w = (Normal resp, w') →
  body resp = json results →
  nr ∈ results → a ∈ assets nr →
  balanceInUSD a = mul (tokenBalance a) (priceInUSD a).
Proof.
  intros Hrun Hbody Hnr Ha.
  destruct (response_assets _ _ _ _ _ _ _ Hrun Hbody Hnr Ha)
    as (reserve & reserveData & _ & Hderived).
  apply Hderived.
Qed.

(** C3: for every asset of every network in the body of the HTTP response,
    tokenBalance is strictly greater than 0, the liquidity index of every
    market reserve the data provider returns being at least one ray. *)
Theorem response_tokenBalance_positive io w resp w' results nr a :
  (∀ chain, index_from_one_ray (io chain)) →
  liquidity_rates Math_pow markets ChainId io w = (Normal resp, w') →
  body resp = json results →
  nr ∈ results → a ∈ assets nr →
  ltb zero (tokenBalance a) = true.
Proof.
  intros Hindex Hrun Hbody Hnr Ha.
  destruct (response_assets_read _ _ _ _ _ _ _ Hrun Hbody Hnr Ha)
    as (chain & contract & addressProvider & reservesData & reserve & reserveData &
        Hreserves & Hmem & Hscaled & Hderived).
  pose proof (Hindex chain _ _ _ _ Hreserves Hmem) as Hray.
  destruct Hderived as [_ _ _ Hdec Hbalance _ _]. rewrite Hbalance.
  apply of_decimal_positive; [|done].
  apply Z.lt_le_trans with 1; [done|].
  apply Z.quot_le_lower_bound; [done|]. nia.
Qed.

(** C8: a matched user reserve gets
    tokenBalance = parseFloat (formatUnits (scaledBalance * liquidityIndex
    / 10^27, decimals)); for scaled balance 1000, liquidity index
    1.05 * 10^27 and 6 decimals the real balance is 1050 and tokenBalance is
    the binary64 number 4842270319348757 * 2^-62, which lies within half a
    unit in the last place (2^-63) of 105 / 100000 = 0.00105. *)
Theorem asset_of_real_balance tokenList reservesData reserve reserveData w :
  List.find (matches reserve) reservesData = Some reserveData →
  0 ≤ decimals reserveData ≤ 256 →
  ∃ a,
    asset_of Math_pow tokenList reservesData reserve w = (Normal (Some a), w) ∧
    tokenBalance a =
      of_decimal
        (Z.quot (scaledATokenBalance reserve * liquidityIndex reserveData) (10 ^ 27))
        (decimals reserveData) ∧
    (scaledATokenBalance reserve = 1000 →
     liquidityIndex reserveData = 105 * 10 ^ 25 →
     decimals reserveData = 6 →
     Z.quot (scaledATokenBalance reserve * liquidityIndex reserveData) (10 ^ 27) = 1050 ∧
     tokenBalance a = S754_finite false 4842270319348757 (-62) ∧
     2 * Z.abs (4842270319348757 * 100000 - 105 * 2 ^ 62) ≤ 100000).
Proof.
  intros Hfind Hdec. unfold asset_of. rewrite Hfind.
  unfold bind, lift, ret.
  rewrite normalizeBalance_Normal by done.
  rewrite normalizeBalance_Normal by done.
  eexists. split; [reflexivity|]. cbn [tokenBalance]. split; [done|].
  intros -> -> ->. by vm_compute.
Qed.

Lemma forEach_set_lookup_None tokens tokenMap0 tokenMap key :
  forEach_set tokens tokenMap0 = Normal tokenMap →
  tokenMap0 !! key = None →
  (∀ token s, token ∈ tokens → tj_symbol token = Some s → toUpperCase s ≠ key) →
  tokenMap !! key = None.
Proof.
  revert tokenMap0. induction tokens as [|token tokens IH];
    intros tokenMap0 Hrun Hnone Habsent.
  - by injection Hrun as <-.
  - cbn [forEach_set] in Hrun.
    destruct (tj_symbol token) as [s|] eqn:Hs; [|done].
    apply (IH _ Hrun).
    + rewrite lookup_insert_ne; [done|].
      apply (Habsent token s); [apply list_elem_of_here | done].
    + intros token' s' Hin. apply Habsent. by apply list_elem_of_further.
Qed.

(** C9: when no entry of the token list has the reserve's symbol, compared
    without regard to case (no token symbol has the same [toUpperCase] as the
    reserve's, whatever the case mapping of the engine is), a matched user
    reserve yields an asset whose name is the reserve's symbol and whose
    image is the placeholder URL, and the computation completes normally. *)
Theorem asset_of_missing_metadata tokens tokenList reservesData reserve reserveData w :
  forEach_set tokens ∅ = Normal tokenList →
  (∀ token s, token ∈ tokens → tj_symbol token = Some s →
     toUpperCase s ≠ toUpperCase (symbol reserveData)) →
  List.find (matches reserve) reservesData = Some reserveData →
  0 ≤ decimals reserveData ≤ 256 →
  ∃ a,
    asset_of Math_pow tokenList reservesData reserve w = (Normal (Some a), w) ∧
    a_symbol a = symbol reserveData ∧
    name a = Some (symbol reserveData) ∧
    image_url a = Some placeholder_image.
Proof.
  intros Hmap Habsent Hfind Hdec.
  assert (Hnone : tokenList !! toUpperCase (symbol reserveData) = None).
  { by apply (forEach_set_lookup_None tokens ∅ tokenList). }
  unfold asset_of. rewrite Hfind.
  unfold bind, lift, ret.
  rewrite normalizeBalance_Normal by done.
  rewrite normalizeBalance_Normal by done.
  rewrite Hnone. eexists. split; [reflexivity|]. done.
Qed.

Lemma Confined_asset_of n tokenList reservesData reserve :
  Confined n (asset_of Math_pow tokenList reservesData reserve).
Proof. unfold asset_of. cbv zeta. repeat confined_step. Qed.

Lemma Confined_fetchContractData io chain rpc :
  Confined chain (fetchContractData Math_pow markets ChainId io chain rpc).
Proof.
  unfold fetchContractData. cbv zeta.
  pose proof (Confined_fetchTokenList (token_io io) chain).
  pose proof (Confined_asset_of chain).
  repeat confined_step.
Qed.

Lemma fetchContractData_rpc_fails io chain rpc w :
  rpc_fails io →
  fst (fetchContractData Math_pow markets ChainId io chain rpc w) = Normal None.
Proof.
  intros Hfails. unfold fetchContractData, try_catch. cbv zeta.
  destruct (markets _) as [market|]; [|done].
  unfold bind at 1. unfold lift at 1.
  destruct Hfails as [Huser | Hreserves].
  - destruct (Huser
      {| uiPoolDataProviderAddress := UI_POOL_DATA_PROVIDER market;
         provider := rpc; chainId := ChainId chain |}
      (POOL_ADDRESSES_PROVIDER market) user) as [e ->]. done.
  - destruct (getUserReservesHumanized _ _ _ _); [|done].
    unfold bind at 1. unfold lift at 1.
    destruct (Hreserves
      {| uiPoolDataProviderAddress := UI_POOL_DATA_PROVIDER market;
         provider := rpc; chainId := ChainId chain |}
      (POOL_ADDRESSES_PROVIDER market)) as [e ->]. done.
Qed.

Lemma for_of_isolated io entries results w w0 :
  NoDup entries.*1 →
  (∀ chain, chain ∈ entries.*1 → same_entry chain w w0) →
  fst (for_of Math_pow markets ChainId io entries results w) =
    Normal (results ++ omap (alone Math_pow markets ChainId io w0) entries).
Proof.
  revert results w. induction entries as [|[chain rpc] entries IH];
    intros results w Hnodup Hsame.
  - cbn. by rewrite app_nil_r.
  - cbn [fmap list_fmap fst] in Hnodup. apply NoDup_cons in Hnodup as [Hfresh Hnodup].
    cbn [for_of omap list_omap]. unfold bind at 1.
    pose proof (Confined_fetchContractData (io chain) chain rpc) as [Hreads Hwrites].
    destruct (Hreads w w0) as [Hfst _].
    { apply Hsame. apply list_elem_of_here. }
    destruct (fetchContractData_Normal (io chain) chain rpc w) as (r & w1 & Hrun).
    assert (Hrest : ∀ c, c ∈ entries.*1 → same_entry c w1 w0).
    { intros c Hc. unfold same_entry.
      transitivity (tokenListCache w !! c).
      - specialize (Hwrites c w). rewrite Hrun in Hwrites. apply Hwrites.
        intros ->. done.
      - apply Hsame. by apply list_elem_of_further. }
    unfold alone at 1. cbn [fst snd]. rewrite <- Hfst, Hrun. cbn [fst completed].
    destruct r as [result|].
    + rewrite (IH _ _ Hnodup Hrest). by rewrite <- app_assoc.
    + by rewrite (IH _ _ Hnodup Hrest).
Qed.

Lemma NoDup_chainProviders : NoDup chainProviders.*1.
Proof. apply (bool_decide_unpack _). by vm_compute. Qed.

(** C7: the handler always answers 200 with the JSON array of what each
    configured network contributes on its own, in configuration order, so a
    network whose fetch fails is left out and the others are unaffected;
    when a data-provider read fails on every one of the six networks the
    body is the empty array. *)
Theorem liquidity_rates_isolates_failures io w :
  (∃ w', liquidity_rates Math_pow markets ChainId io w =
           (Normal {| status := 200;
                      body := json (omap (alone Math_pow markets ChainId io w) chainProviders) |}, w')) ∧
  ((∀ chain, chain ∈ chainProviders.*1 → rpc_fails (io chain)) →
   ∃ w', liquidity_rates Math_pow markets ChainId io w =
           (Normal {| status := 200; body := json [] |}, w')).
Proof.
  assert (Hfirst :
    ∃ w', liquidity_rates Math_pow markets ChainId io w =
            (Normal {| status := 200;
                       body := json (omap (alone Math_pow markets ChainId io w) chainProviders) |}, w')).
  { destruct (liquidity_rates_200 io w) as (results & w' & Hresp & Hloop).
    exists w'. rewrite Hresp.
    pose proof (for_of_isolated io chainProviders []
                  (logged (console_log_line "REQ") w) w NoDup_chainProviders) as Hiso.
    rewrite Hloop in Hiso. cbn [fst] in Hiso.
    assert (Heq : Normal results = Normal ([] ++ omap (alone Math_pow markets ChainId io w) chainProviders))
      by (apply Hiso; done).
    injection Heq as ->. done. }
  split; [done|].
  intros Hfail. destruct Hfirst as [w' Hrun]. exists w'. rewrite Hrun.
  assert (Hnone : ∀ entries : list (string * string),
            (∀ chain, chain ∈ entries.*1 → rpc_fails (io chain)) →
            omap (alone Math_pow markets ChainId io w) entries = []).
  { induction entries as [|[chain rpc] entries IH]; intros Hall; [done|].
    cbn [omap list_omap]. unfold alone at 1. cbn [fst snd].
    rewrite fetchContractData_rpc_fails by (apply Hall; apply list_elem_of_here).
    cbn [completed]. apply IH. intros c Hc. apply Hall.
    by apply list_elem_of_further. }
  by rewrite Hnone.
Qed.

Lemma asset_of_unmatched tokenList reservesData reserve w :
  List.find (matches reserve) reservesData = None →
  asset_of Math_pow tokenList reservesData reserve w =
    (Normal None,
     logged (console_log_line
               ("No reserve data found for " +:+ ur_underlyingAsset reserve)) w).
Proof. intros Hfind. unfold asset_of. by rewrite Hfind. Qed.

(** C2 (what the code does instead): when the two data-provider reads
    succeed and some user reserve with a positive scaled balance matches no
    market reserve, fetchContractData returns null for the network, whatever
    the other reserves are. *)
Theorem unmatched_reserve_drops_network
    io chain rpc w userReserves reservesData reserve :
  (∀ contract addressProvider account,
     getUserReservesHumanized io contract addressProvider account =
       Normal userReserves) →
  (∀ contract addressProvider,
     getReservesHumanized io contract addressProvider = Normal reservesData) →
  reserve ∈ userReserves →
  0 < scaledATokenBalance reserve →
  List.find (matches reserve) reservesData = None →
  fst (fetchContractData Math_pow markets ChainId io chain rpc w) = Normal None.
Proof.
  intros Huser Hreserves Hin Hpos Hfind.
  destruct (fetchContractData_Normal io chain rpc w) as (r & w' & Hrun).
  rewrite Hrun. destruct r as [nr|]; [exfalso|done].
  destruct (fetchContractData_Some_inv _ _ _ _ _ _ Hrun)
    as (market & userReserves' & reservesData' & tokenList & w2 & promises & w3 & all &
        _ & Huser' & Hreserves' & _ & Hmap & Hall & Hsum & _).
  rewrite Huser in Huser'. injection Huser' as <-.
  rewrite Hreserves in Hreserves'. injection Hreserves' as <-.
  assert (Hkept : reserve ∈ List.filter has_balance userReserves).
  { apply list_elem_of_In, List.filter_In. split; [by apply list_elem_of_In|].
    by apply has_balance_spec. }
  destruct (map_async_mem _ _ _ _ _ _ Hmap Hkept) as [w1 Hpromise].
  rewrite asset_of_unmatched in Hpromise by done. cbn [fst] in Hpromise.
  apply (Promise_all_mem _ _ _ Hall) in Hpromise.
  apply reduce_balanceInUSD_Normal in Hsum as [Hsome _].
  rewrite Hsome in Hpromise.
  apply list_elem_of_fmap in Hpromise as (a & [=] & _).
Qed.

End Properties.

(** * Further properties *)

(** ** Numbers: finite results *)

Lemma Zdigits2_lt_pow2 m k : 0 < m → m < 2 ^ k → Zdigits2 m ≤ k.
Proof.
  intros Hm Hk. rewrite Zdigits2_log2 by done.
  destruct (Z_lt_le_dec k 0) as [Hneg|Hk0].
  { rewrite Z.pow_neg_r in Hk by done. lia. }
  enough (Z.log2 m < k) by lia.
  apply Z.log2_lt_pow2; done.
Qed.

(** [shr_fexp] keeps a positive significand positive, moves the exponent to
    the larger of the given one and the canonical one, and does not increase
    the position of the leading bit. *)
Lemma shr_fexp_bounds m e l :
  0 < m → emin prec emax < Zdigits2 m + e →
  0 < shr_m (fst (shr_fexp prec emax m e l)) ∧
  snd (shr_fexp prec emax m e l) = Z.max e (fexp prec emax (Zdigits2 m + e)) ∧
  Zdigits2 (shr_m (fst (shr_fexp prec emax m e l))) + snd (shr_fexp prec emax m e l)
    ≤ Zdigits2 m + e.
Proof.
  intros Hm Hd. unfold shr_fexp, shr.
  destruct (Zdigits2_bounds m Hm) as (Hdpos & Hlo & Hhi).
  set (n := fexp prec emax (Zdigits2 m + e) - e).
  assert (Hn : n < Zdigits2 m).
  { subst n. unfold fexp, prec. unfold prec in *. lia. }
  destruct n as [|p|p] eqn:Hp; cbn [fst snd]; rewrite ?shr_record_of_loc_m;
    try (split; [done|]; split; lia).
  rewrite iter_pos_shr_1_m by (rewrite shr_record_of_loc_m; lia).
  rewrite shr_record_of_loc_m.
  assert (Hpow : 0 < 2 ^ Z.pos p) by (apply Z.pow_pos_nonneg; lia).
  assert (Hge : 2 ^ (Zdigits2 m - 1 - Z.pos p) ≤ m / 2 ^ Z.pos p).
  { apply Z.div_le_lower_bound; [done|].
    rewrite <- Z.pow_add_r by lia.
    replace (Z.pos p + (Zdigits2 m - 1 - Z.pos p)) with (Zdigits2 m - 1) by lia.
    done. }
  assert (Hpos : 0 < m / 2 ^ Z.pos p).
  { eapply Z.lt_le_trans; [|exact Hge]. apply Z.pow_pos_nonneg; lia. }
  assert (Hlt : m / 2 ^ Z.pos p < 2 ^ (Zdigits2 m - Z.pos p)).
  { apply Z.div_lt_upper_bound; [done|].
    rewrite <- Z.pow_add_r by lia.
    replace (Z.pos p + (Zdigits2 m - Z.pos p)) with (Zdigits2 m) by lia. done. }
  split; [done|]. split; [lia|].
  pose proof (Zdigits2_lt_pow2 _ _ Hpos Hlt). lia.
Qed.

Lemma round_nearest_even_le m l : round_nearest_even m l ≤ m + 1.
Proof.
  destruct l as [|[]]; cbn [round_nearest_even]; try lia.
  destruct (Z.even m); lia.
Qed.

(** Rounding a positive significand whose leading bit lies between the
    smallest subnormal and 2^1023 gives a finite number of the given sign. *)
Lemma binary_round_aux_finite sx mx ex lx :
  0 < mx → emin prec emax < Zdigits2 mx + ex → Zdigits2 mx + ex ≤ 1023 →
  ex ≤ emax - prec →
  ∃ m e, binary_round_aux prec emax sx mx ex lx = S754_finite sx m e.
Proof.
  intros Hm Hlow Hhigh Hex. unfold binary_round_aux.
  destruct (shr_fexp_bounds mx ex lx Hm Hlow) as (Hpos1 & He1 & Hsum1).
  destruct (shr_fexp prec emax mx ex lx) as [mrs1 e1]. cbn [fst snd] in *.
  set (m2 := round_nearest_even (shr_m mrs1) (loc_of_shr_record mrs1)).
  assert (Hge : shr_m mrs1 ≤ m2) by apply round_nearest_even_ge.
  assert (Hle : m2 ≤ shr_m mrs1 + 1) by apply round_nearest_even_le.
  destruct (Zdigits2_bounds (shr_m mrs1) Hpos1) as (Hd1 & _ & Hhi1).
  assert (Hd2lo : Zdigits2 (shr_m mrs1) ≤ Zdigits2 m2) by (apply Zdigits2_mono; lia).
  assert (Hd2hi : Zdigits2 m2 ≤ Zdigits2 (shr_m mrs1) + 1).
  { apply Zdigits2_lt_pow2; [lia|].
    rewrite Z.pow_add_r by lia. lia. }
  assert (Hlow1 : emin prec emax < Zdigits2 (shr_m mrs1) + e1).
  { pose proof (Zdigits2_le_pow2 (shr_m mrs1) 0 Hpos1 ltac:(lia)).
    rewrite He1. unfold fexp, emin, emax, prec in *. lia. }
  destruct (shr_fexp_bounds m2 e1 loc_Exact ltac:(lia) ltac:(lia))
    as (Hpos3 & He3 & _).
  destruct (shr_fexp prec emax m2 e1 loc_Exact) as [mrs3 e3]. cbn [fst snd] in *.
  destruct (shr_m mrs3) as [|p|p]; [lia| |lia].
  assert (Hfin : (e3 <=? emax - prec) = true).
  { apply Z.leb_le. rewrite He3, He1. unfold fexp, emin, emax, prec in *. lia. }
  rewrite Hfin. eauto.
Qed.

Lemma SFdiv_core_binary_bounds p q :
  Z.pos q < 2 ^ 1074 →
  let '(mz, ez, lz) := SFdiv_core_binary prec emax (Z.pos p) 0 (Z.pos q) 0 in
  0 < mz ∧ emin prec emax < Zdigits2 mz + ez ∧
  Zdigits2 mz + ez ≤ Zdigits2 (Z.pos p) ∧ ez ≤ 0.
Proof.
  intros Hq. unfold SFdiv_core_binary.
  destruct (Zdigits2_bounds (Z.pos p) ltac:(lia)) as (Hd1 & Hp1 & Hp2).
  destruct (Zdigits2_bounds (Z.pos q) ltac:(lia)) as (Hd2 & Hq1 & Hq2).
  set (d1 := Zdigits2 (Z.pos p)) in *. set (d2 := Zdigits2 (Z.pos q)) in *.
  set (e' := Z.min (fexp prec emax (d1 + 0 - (d2 + 0))) (0 - 0)).
  assert (He' : emin prec emax ≤ e' ≤ 0).
  { subst e'. unfold fexp, emin, emax, prec. lia. }
  set (m' := match 0 - 0 - e' with
             | 0 => Z.pos p | Z.pos _ => Z.shiftl (Z.pos p) (0 - 0 - e') | Z.neg _ => 0 end).
  assert (Hm' : m' = Z.pos p * 2 ^ (- e')).
  { subst m'. destruct (0 - 0 - e') as [|s|s] eqn:Hs.
    - replace (- e') with 0 by lia. lia.
    - rewrite Z.shiftl_mul_pow2 by lia. f_equal. f_equal. lia.
    - lia. }
  assert (Hpow : 0 < 2 ^ (- e')) by (apply Z.pow_pos_nonneg; lia).
  assert (Hge : Z.pos q ≤ m').
  { rewrite Hm'.
    destruct (Z_le_gt_dec (53 + d2 - d1) (- e')) as [Hcase|Hcase].
    - apply Z.le_trans with (2 ^ (d1 - 1) * 2 ^ (- e')).
      + rewrite <- Z.pow_add_r by lia.
        apply Z.le_trans with (2 ^ d2); [lia|].
        apply Z.pow_le_mono_r; lia.
      + apply Z.mul_le_mono_nonneg_r; [lia | done].
    - assert (e' = -1074).
      { subst e'. unfold fexp, emin, emax, prec in *. lia. }
      replace (- e') with 1074 in * by lia. nia. }
  pose proof (Z_div_mod m' (Z.pos q) ltac:(lia)) as Hdm.
  change (IntDef.Z.div_eucl m' (Z.pos q)) with (Z.div_eucl m' (Z.pos q)).
  destruct (Z.div_eucl m' (Z.pos q)) as [q0 r]. destruct Hdm as [Heq Hr].
  assert (Hq0 : 0 < q0) by nia.
  split; [done|].
  destruct (Zdigits2_bounds q0 Hq0) as (Hd0 & _).
  split; [lia|]. split; [|lia].
  assert (Hq0lt : q0 < 2 ^ (d1 + - e')).
  { rewrite Z.pow_add_r by lia. nia. }
  pose proof (Zdigits2_lt_pow2 _ _ Hq0 Hq0lt). lia.
Qed.

(** A positive integer below 2^1023 over a power of ten up to 10^256 parses
    to a finite positive number. *)
Lemma of_decimal_finite n d :
  0 < n < 2 ^ 1023 → 0 ≤ d ≤ 256 →
  ∃ m e, of_decimal n d = S754_finite false m e.
Proof.
  intros [Hn Hbig] Hd. unfold of_decimal.
  assert (Hpow : 0 < 10 ^ d < 2 ^ 1074).
  { split; [apply Z.pow_pos_nonneg; lia|].
    apply Z.le_lt_trans with (10 ^ 256); [apply Z.pow_le_mono_r; lia|].
    by vm_compute. }
  destruct n as [|p|p]; [lia| |lia].
  destruct (10 ^ d) as [|q|q]; [lia| |lia].
  cbn [exact SFdiv xorb].
  pose proof (SFdiv_core_binary_bounds p q ltac:(lia)) as Hcore.
  destruct (SFdiv_core_binary prec emax (Z.pos p) 0 (Z.pos q) 0) as [[mz ez] lz].
  destruct Hcore as (Hmz & Hlow & Hhigh & Hez).
  pose proof (Zdigits2_lt_pow2 (Z.pos p) 1023 ltac:(lia) Hbig).
  apply binary_round_aux_finite; unfold emax, prec in *; lia.
Qed.

(** X11: for a balance in the range of a uint256 and 0 to 256 decimals,
    normalizeBalance completes normally; the result is +0 for balance 0 and
    otherwise a finite positive number (never NaN, never an infinity, never
    a zero by underflow). *)
Theorem normalizeBalance_of_uint256 balance decimals :
  0 ≤ balance < 2 ^ 256 →
  0 ≤ decimals ≤ 256 →
  ∃ x, normalizeBalance balance (Some decimals) = Normal x ∧
       (balance = 0 → x = zero) ∧
       (0 < balance → ∃ m e, x = S754_finite false m e).
Proof.
  intros Hrange Hdec. rewrite normalizeBalance_Normal by done.
  eexists. split; [reflexivity|]. split.
  - intros ->. apply of_decimal_zero. lia.
  - intros Hpos. apply of_decimal_finite; [|done].
    split; [done|]. apply Z.lt_trans with (2 ^ 256); [lia | by vm_compute].
Qed.

(** X12: the test of line 122, parseFloat of the scaled balance compared
    with 0 in floating point, keeps exactly the user reserves whose scaled
    balance is a positive integer, whatever its size. *)
Theorem filter_keeps_the_positive_balances userReserves :
  List.filter has_balance userReserves =
  List.filter (λ reserve, 0 <? scaledATokenBalance reserve) userReserves.
Proof.
  induction userReserves as [|r l IH]; [done|].
  cbn [List.filter]. rewrite IH.
  unfold has_balance, parseFloat_integer. by rewrite ltb_zero_of_Z.
Qed.

(** ** Quiet computations *)

Lemma Quiet_ret {A} (a : A) : Quiet (ret a).
Proof. by split. Qed.

Lemma Quiet_lift {A} (c : Completion A) : Quiet (lift c).
Proof. by split. Qed.

Lemma Quiet_console_write line : Quiet (console_write line).
Proof. split; try done. intros w. by apply prefix_app_r. Qed.

Lemma Quiet_bind {A B} (c : Js A) (k : A → Js B) :
  Quiet c → (∀ a, Quiet (k a)) → Quiet (bind c k).
Proof.
  intros [Hc Hr Hl] Hk. split; intros w; unfold bind;
    specialize (Hc w); specialize (Hr w); specialize (Hl w);
    destruct (c w) as [[a|e] w1]; cbn [fst snd] in *; try done.
  - by rewrite (quiet_cache _ (Hk a)).
  - by rewrite (quiet_requests _ (Hk a)).
  - etrans; [exact Hl | apply (quiet_console _ (Hk a))].
Qed.

Lemma Quiet_map_async {A B} (f : A → Js B) (l : list A) :
  (∀ x, Quiet (f x)) → Quiet (map_async f l).
Proof.
  intros Hf. induction l as [|x l [IHc IHr IHl]]; [apply Quiet_ret|].
  split; intros w; cbn [map_async];
    pose proof (quiet_cache _ (Hf x) w) as Hc;
    pose proof (quiet_requests _ (Hf x) w) as Hr;
    pose proof (quiet_console _ (Hf x) w) as Hl;
    destruct (f x w) as [r w1]; cbn [fst snd] in *;
    specialize (IHc w1); specialize (IHr w1); specialize (IHl w1);
    destruct (map_async f l w1) as [[rs|e] w2]; cbn [fst snd] in *;
    try congruence; by etrans.
Qed.

(** ** The symbol-keyed map *)

Lemma forEach_set_app tokens1 tokens2 tokenMap0 :
  forEach_set (tokens1 ++ tokens2) tokenMap0 =
    match forEach_set tokens1 tokenMap0 with
    | Normal tokenMap1 => forEach_set tokens2 tokenMap1
    | Throw e => Throw e
    end.
Proof.
  revert tokenMap0. induction tokens1 as [|token l IH]; intros tokenMap0; [done|].
  cbn [app forEach_set]. destruct (tj_symbol token); [apply IH | done].
Qed.

Lemma forEach_set_lookup_other tokens tokenMap0 tokenMap key :
  forEach_set tokens tokenMap0 = Normal tokenMap →
  (∀ token s, token ∈ tokens → tj_symbol token = Some s → toUpperCase s ≠ key) →
  tokenMap !! key = tokenMap0 !! key.
Proof.
  revert tokenMap0. induction tokens as [|token l IH]; intros tokenMap0 Hrun Hother.
  - by injection Hrun as <-.
  - cbn [forEach_set] in Hrun.
    destruct (tj_symbol token) as [s|] eqn:Hs; [|done].
    rewrite (IH _ Hrun).
    + apply lookup_insert_ne. apply (Hother token s); [apply list_elem_of_here | done].
    + intros t' s' Hin. apply Hother. by apply list_elem_of_further.
Qed.

Lemma forEach_set_lookup_is_Some tokens tokenMap0 tokenMap key :
  forEach_set tokens tokenMap0 = Normal tokenMap →
  is_Some (tokenMap !! key) ↔
  is_Some (tokenMap0 !! key) ∨
  ∃ token s, token ∈ tokens ∧ tj_symbol token = Some s ∧ toUpperCase s = key.
Proof.
  revert tokenMap0. induction tokens as [|token l IH]; intros tokenMap0 Hrun.
  - injection Hrun as <-. split; [by left|].
    intros [H | (t & s & Hin & _)]; [done | by apply elem_of_nil in Hin].
  - cbn [forEach_set] in Hrun.
    destruct (tj_symbol token) as [s|] eqn:Hs; [|done].
    rewrite (IH _ Hrun). split.
    + intros [Hins | (t & s' & Hin & Hs' & Hkey)].
      * destruct (decide (toUpperCase s = key)) as [Heq | Hne].
        -- right. exists token, s. split; [apply list_elem_of_here | done].
        -- left. by rewrite lookup_insert_ne in Hins.
      * right. exists t, s'. split; [by apply list_elem_of_further | done].
    + intros [Hold | (t & s' & Hin & Hs' & Hkey)].
      * left. destruct (decide (toUpperCase s = key)) as [<- | Hne].
        -- rewrite lookup_insert_eq. eauto.
        -- by rewrite lookup_insert_ne.
      * apply elem_of_cons in Hin as [-> | Hin].
        -- left. rewrite Hs in Hs'. injection Hs' as <-. subst key.
           rewrite lookup_insert_eq. eauto.
        -- right. eauto.
Qed.

Lemma forEach_set_last pre token post s tokenMap0 tokenMap :
  forEach_set (pre ++ token :: post) tokenMap0 = Normal tokenMap →
  tj_symbol token = Some s →
  (∀ token' s', token' ∈ post → tj_symbol token' = Some s' →
     toUpperCase s' ≠ toUpperCase s) →
  tokenMap !! toUpperCase s = Some (entry_of token s).
Proof.
  intros Hrun Hs Hpost. rewrite forEach_set_app in Hrun.
  destruct (forEach_set pre tokenMap0) as [tokenMap1|]; [|done].
  cbn [forEach_set] in Hrun. rewrite Hs in Hrun.
  rewrite (forEach_set_lookup_other _ _ _ _ Hrun Hpost).
  apply lookup_insert_eq.
Qed.

Lemma forEach_set_malformed tokens tokenMap0 token :
  token ∈ tokens → tj_symbol token = None →
  ∃ e, forEach_set tokens tokenMap0 = Throw e.
Proof.
  revert tokenMap0. induction tokens as [|t l IH]; intros tokenMap0 Hin Hnone.
  - by apply elem_of_nil in Hin.
  - cbn [forEach_set]. destruct (tj_symbol t) as [s|] eqn:Hs; [|by eexists].
    apply elem_of_cons in Hin as [-> | Hin]; [congruence|]. by apply IH.
Qed.

Lemma forEach_set_well_formed tokens tokenMap0 :
  (∀ token, token ∈ tokens → is_Some (tj_symbol token)) →
  ∃ tokenMap, forEach_set tokens tokenMap0 = Normal tokenMap.
Proof.
  revert tokenMap0. induction tokens as [|t l IH]; intros tokenMap0 Hall.
  - by eexists.
  - cbn [forEach_set].
    destruct (Hall t (list_elem_of_here _ _)) as [s ->].
    apply IH. intros t' Hin. apply Hall. by apply list_elem_of_further.
Qed.

(** X5: when several tokens of a list have the same symbol up to case (the
    same [toUpperCase], whatever the case mapping of the engine is), the map
    holds, under the upper-cased symbol, the entry of the last of them, with
    that token's own spelling of the symbol. *)
Theorem token_map_last_wins pre token post s tokenMap :
  buildTokenMap {| tl_tokens := Some (pre ++ token :: post) |} = Normal tokenMap →
  tj_symbol token = Some s →
  (∀ token' s', token' ∈ post → tj_symbol token' = Some s' →
     toUpperCase s' ≠ toUpperCase s) →
  tokenMap !! toUpperCase s =
    Some {| te_name := tj_name token; te_symbol := s; te_image_url := tj_logoURI token |}.
Proof.
  unfold buildTokenMap. cbn [tl_tokens]. intros Hrun Hs Hpost.
  apply (forEach_set_last pre token post s ∅ tokenMap); done.
Qed.

(** X6: one token without a symbol anywhere in the document makes the whole
    retrieval fail: the caller gets the empty map, a warning is logged, and
    nothing is cached, whatever the other tokens are. *)
Theorem malformed_token_discards_the_list
    io networkName w url status tokens token :
  fresh (now_at_check io) (tokenListCache w !! networkName) = false →
  property tokenListUrls networkName = Some url →
  http io url = fetch_responds true status (body_json {| tl_tokens := Some tokens |}) →
  token ∈ tokens → tj_symbol token = None →
  fetchTokenList io networkName w =
    (Normal ∅, logged (warning networkName) (requested url w)).
Proof.
  intros Hstale Hurl Hhttp Hin Hnone.
  rewrite (fetchTokenList_stale _ _ _ url) by done.
  unfold retrieval. rewrite Hhttp. cbn [negb]. unfold buildTokenMap. cbn [tl_tokens].
  by destruct (forEach_set_malformed tokens ∅ token Hin Hnone) as [e ->].
Qed.

(** X7: a document in which every token has a symbol is returned and
    cached with the time of the store; the keys of the map are exactly the
    images of the document's symbols under [toUpperCase], whatever the case
    mapping of the engine is. *)
Theorem well_formed_list_is_cached io networkName w url status tokens :
  fresh (now_at_check io) (tokenListCache w !! networkName) = false →
  property tokenListUrls networkName = Some url →
  http io url = fetch_responds true status (body_json {| tl_tokens := Some tokens |}) →
  (∀ token, token ∈ tokens → is_Some (tj_symbol token)) →
  ∃ tokenMap,
    fetchTokenList io networkName w =
      (Normal tokenMap,
       stored networkName {| data := tokenMap; timestamp := now_at_store io |}
         (requested url w)) ∧
    dom tokenMap =
      list_to_set (omap (λ token, toUpperCase <$> tj_symbol token) tokens).
Proof.
  intros Hstale Hurl Hhttp Hall.
  rewrite (fetchTokenList_stale _ _ _ url) by done.
  unfold retrieval. rewrite Hhttp. cbn [negb]. unfold buildTokenMap. cbn [tl_tokens].
  destruct (forEach_set_well_formed tokens ∅ Hall) as [tokenMap Hrun].
  rewrite Hrun. exists tokenMap. split; [done|].
  apply set_eq. intros key. rewrite elem_of_dom, elem_of_list_to_set.
  rewrite (forEach_set_lookup_is_Some _ _ _ _ Hrun).
  rewrite list_elem_of_omap. split.
  - intros [Hempty | (t & s & Hin & Hs & Hkey)].
    + rewrite lookup_empty in Hempty. by destruct Hempty.
    + exists t. split; [done|]. rewrite Hs. cbn. by rewrite Hkey.
  - intros (t & Hin & Hkey). right.
    destruct (tj_symbol t) as [s|] eqn:Hs; [|done].
    cbn in Hkey. injection Hkey as <-. eauto.
Qed.

(** X8: a call for one network leaves every other network's cache entry
    as it was, completes the same way from any state that holds the same
    entry for its own network, and only adds to the console and to the
    request log. *)
Theorem fetchTokenList_own_entry_only io networkName w :
  (∀ k, k ≠ networkName →
     tokenListCache (snd (fetchTokenList io networkName w)) !! k =
       tokenListCache w !! k) ∧
  (∀ w2, tokenListCache w2 !! networkName = tokenListCache w !! networkName →
     fst (fetchTokenList io networkName w2) = fst (fetchTokenList io networkName w)) ∧
  console w `prefix_of` console (snd (fetchTokenList io networkName w)) ∧
  requests w `prefix_of` requests (snd (fetchTokenList io networkName w)).
Proof.
  pose proof (Confined_fetchTokenList io networkName) as [Hreads Hwrites].
  split; [intros k Hk; by apply Hwrites|].
  split; [intros w2 Hsame; by apply Hreads|].
  destruct (fresh (now_at_check io) (tokenListCache w !! networkName)) eqn:Hfresh.
  - destruct (tokenListCache w !! networkName) as [entry|] eqn:Hget; [|done].
    cbn [fresh] in Hfresh. apply Z.ltb_lt in Hfresh.
    rewrite (fetchTokenList_fresh _ _ _ entry) by done. done.
  - destruct (property tokenListUrls networkName) as [url|] eqn:Hurl.
    + rewrite (fetchTokenList_stale _ _ _ url) by done.
      destruct (retrieval io url); cbn [snd stored logged requested console requests];
        split; try done; try (by apply prefix_app_r).
    + rewrite fetchTokenList_no_url by done.
      cbn [snd logged console requests]. split; [by apply prefix_app_r | done].
Qed.

(** ** Fetcher and handler *)

Section More.

Variable Math_pow : number → number → number.
Variable markets : string → option Market.
Variable ChainId : string → option Z.

Lemma Quiet_asset_of tokenList reservesData reserve :
  Quiet (asset_of Math_pow tokenList reservesData reserve).
Proof.
  unfold asset_of. cbv zeta.
  destruct (List.find _ _).
  - repeat (apply Quiet_bind; [apply Quiet_lift | intros ?]). apply Quiet_ret.
  - apply Quiet_bind; [apply Quiet_console_write | intros ?; apply Quiet_ret].
Qed.

(** The steps of [fetchContractData] once both reads have succeeded. *)
Lemma fetchContractData_steps io chain rpc w market userReserves reservesData :
  markets ("AaveV3" +:+ capitalize chain) = Some market →
  getUserReservesHumanized io
    {| uiPoolDataProviderAddress := UI_POOL_DATA_PROVIDER market;
       provider := rpc; chainId := ChainId chain |}
    (POOL_ADDRESSES_PROVIDER market) user = Normal userReserves →
  getReservesHumanized io
    {| uiPoolDataProviderAddress := UI_POOL_DATA_PROVIDER market;
       provider := rpc; chainId := ChainId chain |}
    (POOL_ADDRESSES_PROVIDER market) = Normal reservesData →
  ∃ tokenList w2 promises w3,
    fetchTokenList (token_io io) chain w = (Normal tokenList, w2) ∧
    map_async (asset_of Math_pow tokenList reservesData)
      (List.filter has_balance userReserves) w2 = (Normal promises, w3) ∧
    fetchContractData Math_pow markets ChainId io chain rpc w =
      match Promise_all promises with
      | Throw e => (Normal None, logged (error_line chain e) w3)
      | Normal all =>
          if (0 <? length (filter_Boolean all))%nat
          then
            match property networkMetadata chain with
            | None =>
                (Normal None,
                 logged (error_line chain
                   (TypeError "Cannot read properties of undefined (reading 'name')")) w3)
            | Some meta =>
                match reduce_balanceInUSD all zero with
                | Normal total =>
                    (Normal (Some {| network := chain;
                                     networkName := nm_name meta;
                                     networkImage := nm_image_url meta;
                                     assets := filter_Boolean all;
                                     totalBalanceUSD := total |}), w3)
                | Throw e => (Normal None, logged (error_line chain e) w3)
                end
            end
          else (Normal None, w3)
      end.
Proof.
  intros Hmarket Huser Hreserves.
  destruct (fetchTokenList_Normal (token_io io) chain w) as (tokenList & w2 & Htl).
  destruct (map_async_Normal (asset_of Math_pow tokenList reservesData)
              (List.filter has_balance userReserves) w2) as (promises & w3 & Hmap).
  exists tokenList, w2, promises, w3. split; [done|]. split; [done|].
  unfold fetchContractData, try_catch. cbv zeta. rewrite Hmarket.
  unfold bind at 1. unfold lift at 1. rewrite Huser.
  unfold bind at 1. unfold lift at 1. rewrite Hreserves.
  unfold bind at 1. rewrite Htl.
  unfold bind at 1. rewrite Hmap.
  unfold bind at 1. unfold lift at 1.
  destruct (Promise_all promises) as [all|e]; [|done].
  destruct (0 <? length (filter_Boolean all))%nat; [|done].
  destruct (property networkMetadata chain) as [meta|]; [|done].
  unfold bind, lift, ret.
  by destruct (reduce_balanceInUSD all zero).
Qed.

(** A failure before the token-list call: one error line, nothing else. *)
Lemma fetchContractData_early io chain rpc w :
  match markets ("AaveV3" +:+ capitalize chain) with
  | None => True
  | Some market =>
      match getUserReservesHumanized io
              {| uiPoolDataProviderAddress := UI_POOL_DATA_PROVIDER market;
                 provider := rpc; chainId := ChainId chain |}
              (POOL_ADDRESSES_PROVIDER market) user with
      | Throw _ => True
      | Normal _ =>
          match getReservesHumanized io
                  {| uiPoolDataProviderAddress := UI_POOL_DATA_PROVIDER market;
                     provider := rpc; chainId := ChainId chain |}
                  (POOL_ADDRESSES_PROVIDER market) with
          | Throw _ => True
          | Normal _ => False
          end
      end
  end →
  ∃ error,
    fetchContractData Math_pow markets ChainId io chain rpc w =
      (Normal None, logged (error_line chain error) w).
Proof.
  unfold fetchContractData, try_catch. cbv zeta.
  destruct (markets _) as [market|]; [|by eexists].
  unfold bind at 1. unfold lift at 1.
  destruct (getUserReservesHumanized _ _ _ _) as [urs|e0]; [|by exists e0].
  unfold bind at 1. unfold lift at 1.
  destruct (getReservesHumanized _ _ _) as [rds|e1]; [done | by exists e1].
Qed.

Lemma fetchContractData_answers io chain rpc w market userReserves reservesData :
  markets ("AaveV3" +:+ capitalize chain) = Some market →
  answers io userReserves reservesData →
  ∃ tokenList w2 promises w3,
    fetchTokenList (token_io io) chain w = (Normal tokenList, w2) ∧
    map_async (asset_of Math_pow tokenList reservesData)
      (List.filter has_balance userReserves) w2 = (Normal promises, w3) ∧
    fetchContractData Math_pow markets ChainId io chain rpc w =
      match Promise_all promises with
      | Throw e => (Normal None, logged (error_line chain e) w3)
      | Normal all =>
          if (0 <? length (filter_Boolean all))%nat
          then
            match property networkMetadata chain with
            | None =>
                (Normal None,
                 logged (error_line chain
                   (TypeError "Cannot read properties of undefined (reading 'name')")) w3)
            | Some meta =>
                match reduce_balanceInUSD all zero with
                | Normal total =>
                    (Normal (Some {| network := chain;
                                     networkName := nm_name meta;
                                     networkImage := nm_image_url meta;
                                     assets := filter_Boolean all;
                                     totalBalanceUSD := total |}), w3)
                | Throw e => (Normal None, logged (error_line chain e) w3)
                end
            end
          else (Normal None, w3)
      end.
Proof.
  intros Hmarket [Huser Hreserves].
  by apply (fetchContractData_steps io chain rpc w market).
Qed.

Lemma filter_has_balance_nil userReserves :
  (∀ reserve, reserve ∈ userReserves → scaledATokenBalance reserve ≤ 0) →
  List.filter has_balance userReserves = [].
Proof.
  induction userReserves as [|r l IH]; intros Hall; [done|].
  cbn [List.filter].
  destruct (has_balance r) eqn:Hr.
  - apply has_balance_spec in Hr.
    specialize (Hall r (list_elem_of_here _ _)). lia.
  - apply IH. intros r' Hr'. apply Hall. by apply list_elem_of_further.
Qed.

Lemma asset_of_matched tokenList reservesData reserve reserveData :
  List.find (matches reserve) reservesData = Some reserveData →
  0 ≤ decimals reserveData ≤ 256 →
  ∃ a,
    (∀ w, asset_of Math_pow tokenList reservesData reserve w = (Normal (Some a), w)) ∧
    derived_from reserve reserveData a ∧
    name a = te_name
      (default {| te_name := Some (symbol reserveData);
                  te_symbol := symbol reserveData;
                  te_image_url := Some placeholder_image |}
               (tokenList !! toUpperCase (symbol reserveData))) ∧
    image_url a = te_image_url
      (default {| te_name := Some (symbol reserveData);
                  te_symbol := symbol reserveData;
                  te_image_url := Some placeholder_image |}
               (tokenList !! toUpperCase (symbol reserveData))).
Proof.
  intros Hfind Hdec. unfold asset_of. rewrite Hfind.
  unfold bind, lift, ret.
  rewrite normalizeBalance_Normal by done.
  rewrite normalizeBalance_Normal by done.
  eexists. split; [intros w; reflexivity|].
  split; [|done].
  apply (find_eqb_Some (λ r, toLowerCase (underlyingAsset r))) in Hfind as [_ Hmatch].
  by constructor.
Qed.

Lemma map_async_all_matched tokenList reservesData reserves :
  (∀ reserve, reserve ∈ reserves →
     ∃ reserveData,
       List.find (matches reserve) reservesData = Some reserveData ∧
       0 ≤ decimals reserveData ≤ 256) →
  ∃ results,
    (∀ w, map_async (asset_of Math_pow tokenList reservesData) reserves w =
            (Normal ((λ a, Normal (Some a)) <$> results), w)) ∧
    Forall2 (λ reserve a,
               ∃ reserveData,
                 List.find (matches reserve) reservesData = Some reserveData ∧
                 derived_from reserve reserveData a)
            reserves results.
Proof.
  induction reserves as [|r l IH]; intros Hall.
  - exists []. split; [done | constructor].
  - destruct (Hall r (list_elem_of_here _ _)) as (rd & Hfind & Hdec).
    destruct (asset_of_matched tokenList reservesData r rd Hfind Hdec)
      as (a & Hrun & Hderived & _).
    destruct IH as (results & Hrest & Hforall).
    { intros r' Hr'. apply Hall. by apply list_elem_of_further. }
    exists (a :: results). split.
    + intros w. cbn [map_async]. rewrite Hrun, Hrest. done.
    + constructor; [by exists rd | done].
Qed.

Lemma Promise_all_fulfilled {A B} (f : A → B) (l : list A) :
  Promise_all ((λ a, Normal (f a)) <$> l) = Normal (f <$> l).
Proof.
  induction l as [|x l IH]; [done|].
  cbn [fmap list_fmap Promise_all] in *. by rewrite IH.
Qed.

Lemma Promise_all_Normal_elem {B} (promises : list (Completion B)) values c :
  Promise_all promises = Normal values → c ∈ promises → ∃ v, c = Normal v.
Proof.
  revert values. induction promises as [|[b|e] ps IH]; intros vs Hall Hc.
  - by apply elem_of_nil in Hc.
  - cbn [Promise_all] in Hall.
    destruct (Promise_all ps) as [bs|] eqn:Hps; [|done].
    apply elem_of_cons in Hc as [-> | Hc]; eauto.
  - done.
Qed.

Lemma filter_Boolean_Some {A} (l : list A) : filter_Boolean (Some <$> l) = l.
Proof.
  unfold filter_Boolean. induction l as [|x l IH]; [done|].
  cbn. by rewrite IH.
Qed.

Lemma reduce_balanceInUSD_Some results sum :
  reduce_balanceInUSD (Some <$> results) sum =
    Normal (fold_left (λ s a, add s (balanceInUSD a)) results sum).
Proof.
  revert sum. induction results as [|a l IH]; intros sum; [done|].
  cbn [fmap list_fmap reduce_balanceInUSD fold_left]. apply IH.
Qed.

Lemma map_async_logs {A B} (f : A → Js B) (l : list A) x line w :
  (∀ y, Quiet (f y)) →
  (∀ w0, snd (f x w0) = logged line w0) →
  x ∈ l →
  line ∈ console (snd (map_async f l w)).
Proof.
  intros Hquiet Hx. revert w. induction l as [|y l IH]; intros w Hin.
  - by apply elem_of_nil in Hin.
  - cbn [map_async].
    destruct (f y w) as [r w1] eqn:Hfy.
    pose proof (quiet_console _ (Quiet_map_async f l Hquiet) w1) as Hgrow.
    apply elem_of_cons in Hin as [-> | Hin].
    + assert (Hline : line ∈ console w1).
      { specialize (Hx w). rewrite Hfy in Hx. cbn [snd] in Hx. subst w1.
        cbn [logged console]. apply elem_of_app. right. apply list_elem_of_here. }
      destruct (map_async f l w1) as [[rs|e] w2]; cbn [snd] in *;
        destruct Hgrow as [k ->]; apply elem_of_app; by left.
    + specialize (IH w1 Hin).
      by destruct (map_async f l w1) as [[rs|e] w2].
Qed.

(** X1: when both reads succeed and no user reserve has a positive scaled
    balance, fetchContractData returns null and its only effect is that of
    its token-list call: no diagnostic and no error line is written. *)
Theorem no_balance_returns_null io chain rpc w market userReserves reservesData :
  markets ("AaveV3" +:+ capitalize chain) = Some market →
  answers io userReserves reservesData →
  (∀ reserve, reserve ∈ userReserves → scaledATokenBalance reserve ≤ 0) →
  fetchContractData Math_pow markets ChainId io chain rpc w =
    (Normal None, snd (fetchTokenList (token_io io) chain w)).
Proof.
  intros Hmarket Hanswers Hnone.
  destruct (fetchContractData_answers io chain rpc w market _ _ Hmarket Hanswers)
    as (tokenList & w2 & promises & w3 & Htl & Hmap & ->).
  rewrite filter_has_balance_nil in Hmap by done.
  cbn in Hmap. injection Hmap as <- <-.
  by rewrite Htl.
Qed.

(** X2: when both reads succeed, the network has metadata, at least one
    user reserve has a positive scaled balance and every such reserve
    matches a market reserve with 0 to 256 decimals, fetchContractData
    returns a NetworkResult with the network's name and image, one asset per
    positive-balance reserve in the order of the user reserves, each derived
    from the first market reserve that matches it, and the left-to-right sum
    of their balances as total; nothing is logged by the fetcher. *)
Theorem all_matched_returns_the_assets
    io chain rpc w market meta userReserves reservesData reserve0 :
  markets ("AaveV3" +:+ capitalize chain) = Some market →
  property networkMetadata chain = Some meta →
  answers io userReserves reservesData →
  reserve0 ∈ userReserves → 0 < scaledATokenBalance reserve0 →
  (∀ reserve, reserve ∈ userReserves → 0 < scaledATokenBalance reserve →
     ∃ reserveData,
       List.find (matches reserve) reservesData = Some reserveData ∧
       0 ≤ decimals reserveData ≤ 256) →
  ∃ nr,
    fetchContractData Math_pow markets ChainId io chain rpc w =
      (Normal (Some nr), snd (fetchTokenList (token_io io) chain w)) ∧
    network nr = chain ∧
    networkName nr = nm_name meta ∧
    networkImage nr = nm_image_url meta ∧
    Forall2 (λ reserve a,
               ∃ reserveData,
                 List.find (matches reserve) reservesData = Some reserveData ∧
                 derived_from reserve reserveData a)
            (List.filter has_balance userReserves) (assets nr) ∧
    totalBalanceUSD nr =
      fold_left (λ s a, add s (balanceInUSD a)) (assets nr) zero.
Proof.
  intros Hmarket Hmeta Hanswers Hin0 Hpos0 Hall.
  destruct (fetchContractData_answers io chain rpc w market _ _ Hmarket Hanswers)
    as (tokenList & w2 & promises & w3 & Htl & Hmap & ->).
  destruct (map_async_all_matched tokenList reservesData
              (List.filter has_balance userReserves)) as (results & Hrun & Hforall).
  { intros r Hr. apply list_elem_of_In, List.filter_In in Hr as [Hr Hpos].
    apply Hall; [by apply list_elem_of_In | by apply has_balance_spec]. }
  rewrite Hrun in Hmap. injection Hmap as <- <-.
  rewrite Promise_all_fulfilled, filter_Boolean_Some, Hmeta, reduce_balanceInUSD_Some.
  assert (Hne : (0 <? length results)%nat = true).
  { apply Nat.ltb_lt.
    assert (Hkept : reserve0 ∈ List.filter has_balance userReserves).
    { apply list_elem_of_In, List.filter_In. split; [by apply list_elem_of_In|].
      by apply has_balance_spec. }
    apply Forall2_length in Hforall. rewrite <- Hforall.
    destruct (List.filter has_balance userReserves); [by apply elem_of_nil in Hkept|].
    cbn. lia. }
  rewrite Hne. rewrite Htl. cbn [snd].
  eexists. split; [reflexivity|]. cbn [network networkName networkImage assets totalBalanceUSD].
  done.
Qed.

(** X3: when a data-provider read fails, fetchContractData returns null and
    its whole effect is one console.error line: no token list is requested
    and the cache is left as it was. *)
Theorem rpc_failure_touches_nothing io chain rpc w :
  rpc_fails io →
  ∃ error,
    fetchContractData Math_pow markets ChainId io chain rpc w =
      (Normal None, logged (error_line chain error) w).
Proof.
  intros Hfails. unfold fetchContractData, try_catch. cbv zeta.
  destruct (markets _) as [market|]; [|by eexists].
  unfold bind at 1. unfold lift at 1.
  destruct Hfails as [Huser | Hreserves].
  - destruct (Huser
      {| uiPoolDataProviderAddress := UI_POOL_DATA_PROVIDER market;
         provider := rpc; chainId := ChainId chain |}
      (POOL_ADDRESSES_PROVIDER market) user) as [e ->]. by exists e.
  - destruct (getUserReservesHumanized _ _ _ _) as [urs|e0]; [|by exists e0].
    unfold bind at 1. unfold lift at 1.
    destruct (Hreserves
      {| uiPoolDataProviderAddress := UI_POOL_DATA_PROVIDER market;
         provider := rpc; chainId := ChainId chain |}
      (POOL_ADDRESSES_PROVIDER market)) as [e ->]. by exists e.
Qed.

(** X4: when both reads succeed and the market reserve of some
    positive-balance user reserve has decimals outside 0..256,
    fetchContractData returns null for the whole network. *)
Theorem bad_decimals_drop_network
    io chain rpc w userReserves reservesData reserve reserveData :
  answers io userReserves reservesData →
  reserve ∈ userReserves →
  0 < scaledATokenBalance reserve →
  List.find (matches reserve) reservesData = Some reserveData →
  ¬ (0 ≤ decimals reserveData ≤ 256) →
  fst (fetchContractData Math_pow markets ChainId io chain rpc w) = Normal None.
Proof.
  intros [Huser Hreserves] Hin Hpos Hfind Hdec.
  destruct (fetchContractData_Normal Math_pow markets ChainId io chain rpc w)
    as (r & w' & Hrun).
  rewrite Hrun. destruct r as [nr|]; [exfalso|done].
  destruct (fetchContractData_Some_inv _ _ _ _ _ _ _ _ _ Hrun)
    as (market & userReserves' & reservesData' & tokenList & w2 & promises & w3 & all &
        _ & Huser' & Hreserves' & _ & Hmap & Hall & _).
  rewrite Huser in Huser'. injection Huser' as <-.
  rewrite Hreserves in Hreserves'. injection Hreserves' as <-.
  assert (Hkept : reserve ∈ List.filter has_balance userReserves).
  { apply list_elem_of_In, List.filter_In. split; [by apply list_elem_of_In|].
    by apply has_balance_spec. }
  destruct (map_async_mem _ _ _ _ _ _ Hmap Hkept) as [w1 Hpromise].
  destruct (Promise_all_Normal_elem _ _ _ Hall Hpromise) as [v Hv].
  unfold asset_of in Hv. rewrite Hfind in Hv.
  unfold bind, lift in Hv.
  destruct (normalizeBalance _ (Some (decimals reserveData))) as [x|] eqn:Hx;
    [|done].
  apply normalizeBalance_inv in Hx as [Hok _]. done.
Qed.

(** X9: when both reads succeed, every positive-balance user reserve
    without market data has its diagnostic line on the console after the
    call, also when the call ends in the catch. *)
Theorem unmatched_reserve_is_reported
    io chain rpc w market userReserves reservesData reserve :
  markets ("AaveV3" +:+ capitalize chain) = Some market →
  answers io userReserves reservesData →
  reserve ∈ userReserves →
  0 < scaledATokenBalance reserve →
  List.find (matches reserve) reservesData = None →
  diagnostic reserve ∈
    console (snd (fetchContractData Math_pow markets ChainId io chain rpc w)).
Proof.
  intros Hmarket Hanswers Hin Hpos Hfind.
  destruct (fetchContractData_answers io chain rpc w market _ _ Hmarket Hanswers)
    as (tokenList & w2 & promises & w3 & Htl & Hmap & ->).
  assert (Hline : diagnostic reserve ∈ console w3).
  { replace w3 with (snd (map_async (asset_of Math_pow tokenList reservesData)
                            (List.filter has_balance userReserves) w2))
      by (by rewrite Hmap).
    apply (map_async_logs _ _ reserve).
    - intros y. apply Quiet_asset_of.
    - intros w0. by rewrite asset_of_unmatched.
    - apply list_elem_of_In, List.filter_In. split; [by apply list_elem_of_In|].
      by apply has_balance_spec. }
  assert (Hlogged : ∀ line, diagnostic reserve ∈ console (logged line w3)).
  { intros line. cbn [logged console]. apply elem_of_app. by left. }
  destruct (Promise_all promises) as [all|e]; [|apply Hlogged].
  destruct (0 <? length (filter_Boolean all))%nat; [|done].
  destruct (property networkMetadata chain); [|apply Hlogged].
  destruct (reduce_balanceInUSD all zero); [done | apply Hlogged].
Qed.

(** X10: when both reads succeed, the cache and the request log after
    fetchContractData are what its token-list call alone leaves, whether the
    call returns a result, returns null or ends in the catch; the console
    only grows. *)
Theorem fetcher_effects_are_the_token_list_call
    io chain rpc w market userReserves reservesData :
  markets ("AaveV3" +:+ capitalize chain) = Some market →
  answers io userReserves reservesData →
  let w1 := snd (fetchTokenList (token_io io) chain w) in
  let w' := snd (fetchContractData Math_pow markets ChainId io chain rpc w) in
  tokenListCache w' = tokenListCache w1 ∧
  requests w' = requests w1 ∧
  console w1 `prefix_of` console w'.
Proof.
  intros Hmarket Hanswers w1 w'. subst w1 w'.
  destruct (fetchContractData_answers io chain rpc w market _ _ Hmarket Hanswers)
    as (tokenList & w2 & promises & w3 & Htl & Hmap & ->).
  rewrite Htl. cbn [snd].
  assert (Hquiet : Quiet (map_async (asset_of Math_pow tokenList reservesData)
                            (List.filter has_balance userReserves))).
  { apply Quiet_map_async. intros y. apply Quiet_asset_of. }
  destruct Hquiet as [Hc Hr Hl].
  specialize (Hc w2). specialize (Hr w2). specialize (Hl w2).
  rewrite Hmap in Hc, Hr, Hl. cbn [snd] in Hc, Hr, Hl.
  assert (Hlogged : ∀ line,
            tokenListCache (logged line w3) = tokenListCache w2 ∧
            requests (logged line w3) = requests w2 ∧
            console w2 `prefix_of` console (logged line w3)).
  { intros line. cbn [logged tokenListCache requests console].
    split; [done|]. split; [done|]. by apply prefix_app_r. }
  destruct (Promise_all promises) as [all|e]; [|apply Hlogged].
  destruct (0 <? length (filter_Boolean all))%nat; [|done].
  destruct (property networkMetadata chain); [|apply Hlogged].
  destruct (reduce_balanceInUSD all zero); [done | apply Hlogged].
Qed.

(** X18: a matched user reserve whose symbol is in the token list up to
    case (a token has the same [toUpperCase], whatever the case mapping of
    the engine is) takes its name and image from the last token with that
    symbol, and keeps the symbol as the market data spells it. *)
Theorem asset_of_listed_metadata
    pre token post s tokenList reservesData reserve reserveData w :
  forEach_set (pre ++ token :: post) ∅ = Normal tokenList →
  tj_symbol token = Some s →
  toUpperCase s = toUpperCase (symbol reserveData) →
  (∀ token' s', token' ∈ post → tj_symbol token' = Some s' →
     toUpperCase s' ≠ toUpperCase (symbol reserveData)) →
  List.find (matches reserve) reservesData = Some reserveData →
  0 ≤ decimals reserveData ≤ 256 →
  ∃ a,
    asset_of Math_pow tokenList reservesData reserve w = (Normal (Some a), w) ∧
    a_symbol a = symbol reserveData ∧
    name a = tj_name token ∧
    image_url a = tj_logoURI token.
Proof.
  intros Hmap Hs Hkey Hpost Hfind Hdec.
  assert (Hget : tokenList !! toUpperCase (symbol reserveData) = Some (entry_of token s)).
  { rewrite <- Hkey. apply (forEach_set_last pre token post s ∅); [done..|].
    intros t' s' Hin Hs'. rewrite Hkey. by apply (Hpost t' s'). }
  destruct (asset_of_matched tokenList reservesData reserve reserveData Hfind Hdec)
    as (a & Hrun & Hderived & Hname & Himage).
  exists a. split; [apply Hrun|]. split; [apply Hderived|].
  rewrite Hname, Himage, Hget. done.
Qed.

Lemma fetchTokenList_requests io networkName w :
  ∃ extra,
    requests (snd (fetchTokenList io networkName w)) = requests w ++ extra ∧
    extra `sublist_of` option_list (property tokenListUrls networkName).
Proof.
  destruct (fresh (now_at_check io) (tokenListCache w !! networkName)) eqn:Hfresh.
  - destruct (tokenListCache w !! networkName) as [entry|] eqn:Hget; [|done].
    cbn [fresh] in Hfresh. apply Z.ltb_lt in Hfresh.
    rewrite (fetchTokenList_fresh _ _ _ entry) by done.
    exists []. split; [by rewrite app_nil_r | apply sublist_nil_l].
  - destruct (property tokenListUrls networkName) as [url|] eqn:Hurl.
    + rewrite (fetchTokenList_stale _ _ _ url) by done.
      exists [url]. by destruct (retrieval io url).
    + rewrite fetchTokenList_no_url by done.
      exists []. split; [by rewrite app_nil_r | done].
Qed.

(** Whatever the reads answer, [fetchContractData] leaves the cache and the
    request log as they were or as its token-list call leaves them. *)
Lemma fetchContractData_effects io chain rpc w :
  let w' := snd (fetchContractData Math_pow markets ChainId io chain rpc w) in
  let w1 := snd (fetchTokenList (token_io io) chain w) in
  (tokenListCache w' = tokenListCache w ∧ requests w' = requests w) ∨
  (tokenListCache w' = tokenListCache w1 ∧ requests w' = requests w1).
Proof.
  cbv zeta.
  pose proof (fetchContractData_early io chain rpc w) as Hearly.
  pose proof (fetchContractData_steps io chain rpc w) as Hsteps.
  destruct (markets _) as [market|] eqn:Hmarket;
    [|left; by destruct (Hearly I) as [e ->]].
  destruct (getUserReservesHumanized _ _ _ _) as [userReserves|] eqn:Huser;
    [|left; by destruct (Hearly I) as [e ->]].
  destruct (getReservesHumanized _ _ _) as [reservesData|] eqn:Hreserves;
    [|left; by destruct (Hearly I) as [e ->]].
  right.
  destruct (Hsteps market userReserves reservesData eq_refl Huser Hreserves)
    as (tokenList & w2 & promises & w3 & Htl & Hmap & ->).
  rewrite Htl. cbn [snd].
  assert (Hquiet : Quiet (map_async (asset_of Math_pow tokenList reservesData)
                            (List.filter has_balance userReserves))).
  { apply Quiet_map_async. intros y. apply Quiet_asset_of. }
  destruct Hquiet as [Hc Hr _]. specialize (Hc w2). specialize (Hr w2).
  rewrite Hmap in Hc, Hr. cbn [snd] in Hc, Hr.
  destruct (Promise_all promises) as [all|e]; [|done].
  destruct (0 <? length (filter_Boolean all))%nat; [|done].
  destruct (property networkMetadata chain) as [meta|]; [|done].
  by destruct (reduce_balanceInUSD all zero).
Qed.

Lemma for_of_requests io entries results w :
  ∃ extra,
    requests (snd (for_of Math_pow markets ChainId io entries results w)) =
      requests w ++ extra ∧
    extra `sublist_of`
      (entries.*1 ≫= (λ chain, option_list (property tokenListUrls chain))).
Proof.
  revert results w. induction entries as [|[chain rpc] entries IH]; intros results w.
  - exists []. split; [by rewrite app_nil_r | done].
  - cbn [for_of]. unfold bind at 1.
    assert (Hstep : ∃ extra1,
              requests (snd (fetchContractData Math_pow markets ChainId
                               (io chain) chain rpc w)) = requests w ++ extra1 ∧
              extra1 `sublist_of` option_list (property tokenListUrls chain)).
    { destruct (fetchContractData_effects (io chain) chain rpc w) as [[_ Hr] | [_ Hr]].
      - exists []. split; [by rewrite app_nil_r | apply sublist_nil_l].
      - rewrite Hr. apply fetchTokenList_requests. }
    destruct Hstep as (extra1 & Hreq1 & Hsub1).
    destruct (fetchContractData_Normal Math_pow markets ChainId (io chain) chain rpc w)
      as (r & w1 & Hrun).
    rewrite Hrun in Hreq1 |- *. cbn [snd] in Hreq1.
    assert (Hrest : ∀ results',
              ∃ extra,
                requests (snd (for_of Math_pow markets ChainId io entries results' w1)) =
                  requests w ++ extra ∧
                extra `sublist_of`
                  (((chain, rpc) :: entries).*1 ≫=
                     (λ chain, option_list (property tokenListUrls chain)))).
    { intros results'. destruct (IH results' w1) as (extra2 & Hreq2 & Hsub2).
      exists (extra1 ++ extra2). split.
      - by rewrite Hreq2, Hreq1, app_assoc.
      - cbn [fmap list_fmap fst]. rewrite bind_cons. by apply sublist_app. }
    destruct r; apply Hrest.
Qed.

(** X15: one request to the handler sends at most one token-list request
    per configured network, in configuration order, and no other request. *)
Theorem handler_requests_follow_configuration io w :
  ∃ extra,
    requests (snd (liquidity_rates Math_pow markets ChainId io w)) =
      requests w ++ extra ∧
    extra `sublist_of` token_list_urls.
Proof.
  destruct (liquidity_rates_200 Math_pow markets ChainId io w)
    as (results & w' & Hresp & Hloop).
  rewrite Hresp. cbn [snd].
  destruct (for_of_requests io chainProviders [] (logged (console_log_line "REQ") w))
    as (extra & Hreq & Hsub).
  rewrite Hloop in Hreq. cbn [snd] in Hreq.
  exists extra. split; [exact Hreq | exact Hsub].
Qed.

Lemma for_of_fresh io entries results w :
  (∀ chain, chain ∈ entries.*1 →
     fresh (now_at_check (token_io (io chain))) (tokenListCache w !! chain) = true) →
  requests (snd (for_of Math_pow markets ChainId io entries results w)) = requests w ∧
  tokenListCache (snd (for_of Math_pow markets ChainId io entries results w)) =
    tokenListCache w.
Proof.
  revert results w. induction entries as [|[chain rpc] entries IH];
    intros results w Hfresh; [done|].
  cbn [for_of]. unfold bind.
  assert (Hstep :
    tokenListCache (snd (fetchContractData Math_pow markets ChainId
                           (io chain) chain rpc w)) = tokenListCache w ∧
    requests (snd (fetchContractData Math_pow markets ChainId
                     (io chain) chain rpc w)) = requests w).
  { destruct (fetchContractData_effects (io chain) chain rpc w) as [H | [Hc Hr]];
      [done|].
    specialize (Hfresh chain (list_elem_of_here _ _)).
    destruct (tokenListCache w !! chain) as [entry|] eqn:Hget; [|done].
    cbn [fresh] in Hfresh. apply Z.ltb_lt in Hfresh.
    rewrite (fetchTokenList_fresh _ _ _ entry) in Hc, Hr by done. done. }
  destruct Hstep as [Hc Hr].
  destruct (fetchContractData_Normal Math_pow markets ChainId (io chain) chain rpc w)
    as (r & w1 & Hrun).
  rewrite Hrun in Hc, Hr |- *. cbn [snd] in Hc, Hr.
  assert (Hrest : ∀ results',
    requests (snd (for_of Math_pow markets ChainId io entries results' w1)) = requests w ∧
    tokenListCache (snd (for_of Math_pow markets ChainId io entries results' w1)) =
      tokenListCache w).
  { intros results'. rewrite <- Hc, <- Hr. apply IH.
    intros c Hin. rewrite Hc. apply Hfresh. by apply list_elem_of_further. }
  destruct r; apply Hrest.
Qed.

(** X16: when the cache holds a fresh entry for each of the six networks,
    a request to the handler sends no HTTP request and leaves the cache as
    it was. *)
Theorem fresh_cache_sends_no_request io w :
  (∀ chain, chain ∈ chainProviders.*1 →
     fresh (now_at_check (token_io (io chain))) (tokenListCache w !! chain) = true) →
  requests (snd (liquidity_rates Math_pow markets ChainId io w)) = requests w ∧
  tokenListCache (snd (liquidity_rates Math_pow markets ChainId io w)) =
    tokenListCache w.
Proof.
  intros Hfresh.
  destruct (liquidity_rates_200 Math_pow markets ChainId io w)
    as (results & w' & Hresp & Hloop).
  rewrite Hresp. cbn [snd].
  destruct (for_of_fresh io chainProviders [] (logged (console_log_line "REQ") w) Hfresh)
    as [Hr Hc].
  rewrite Hloop in Hr, Hc. done.
Qed.

Lemma for_of_cache io entries results w w0 :
  NoDup entries.*1 →
  (∀ chain, chain ∈ entries.*1 → same_entry chain w w0) →
  (∀ chain rpc, (chain, rpc) ∈ entries →
     tokenListCache (snd (for_of Math_pow markets ChainId io entries results w)) !! chain =
     tokenListCache (snd (fetchContractData Math_pow markets ChainId
                            (io chain) chain rpc w0)) !! chain) ∧
  (∀ k, k ∉ entries.*1 →
     tokenListCache (snd (for_of Math_pow markets ChainId io entries results w)) !! k =
     tokenListCache w !! k).
Proof.
  revert results w. induction entries as [|[c r] entries IH];
    intros results w Hnodup Hsame.
  - split; [intros chain rpc Hin; by apply elem_of_nil in Hin | done].
  - cbn [fmap list_fmap fst] in Hnodup. apply NoDup_cons in Hnodup as [Hfresh Hnodup].
    cbn [for_of]. unfold bind.
    pose proof (Confined_fetchContractData Math_pow markets ChainId (io c) c r)
      as [Hreads Hwrites].
    destruct (Hreads w w0) as [_ Hown].
    { apply Hsame. apply list_elem_of_here. }
    destruct (fetchContractData_Normal Math_pow markets ChainId (io c) c r w)
      as (res & w1 & Hrun).
    pose proof (λ k, Hwrites k w) as Hothers.
    rewrite Hrun in Hown, Hothers |- *. cbn [snd] in Hown, Hothers.
    assert (Hrest : ∀ chain, chain ∈ entries.*1 → same_entry chain w1 w0).
    { intros chain Hin. unfold same_entry.
      transitivity (tokenListCache w !! chain).
      - apply Hothers. intros ->. done.
      - apply Hsame. by apply list_elem_of_further. }
    assert (Hgoal : ∀ results',
      (∀ chain rpc, (chain, rpc) ∈ (c, r) :: entries →
         tokenListCache (snd (for_of Math_pow markets ChainId io entries results' w1))
           !! chain =
         tokenListCache (snd (fetchContractData Math_pow markets ChainId
                                (io chain) chain rpc w0)) !! chain) ∧
      (∀ k, k ∉ ((c, r) :: entries).*1 →
         tokenListCache (snd (for_of Math_pow markets ChainId io entries results' w1))
           !! k = tokenListCache w !! k)).
    { intros results'.
      destruct (IH results' w1 Hnodup Hrest) as [IHin IHout].
      split.
      - intros chain rpc Hin. apply elem_of_cons in Hin as [[= -> ->] | Hin].
        + rewrite (IHout c Hfresh). exact Hown.
        + by apply IHin.
      - intros k Hk. cbn [fmap list_fmap fst] in Hk.
        apply not_elem_of_cons in Hk as [Hkc Hk].
        rewrite (IHout k Hk). by apply Hothers. }
    destruct res; apply Hgoal.
Qed.

(** X14: after a request to the handler, the cache entry of each
    configured network is the one its own fetch leaves when run alone from
    the initial state, and the entry of any other key is untouched. *)
Theorem handler_cache_per_network io w :
  (∀ chain rpc, (chain, rpc) ∈ chainProviders →
     tokenListCache (snd (liquidity_rates Math_pow markets ChainId io w)) !! chain =
     tokenListCache (snd (fetchContractData Math_pow markets ChainId
                            (io chain) chain rpc w)) !! chain) ∧
  (∀ k, k ∉ chainProviders.*1 →
     tokenListCache (snd (liquidity_rates Math_pow markets ChainId io w)) !! k =
     tokenListCache w !! k).
Proof.
  destruct (liquidity_rates_200 Math_pow markets ChainId io w)
    as (results & w' & Hresp & Hloop).
  rewrite Hresp. cbn [snd].
  destruct (for_of_cache io chainProviders [] (logged (console_log_line "REQ") w) w
              (NoDup_chainProviders) ltac:(done)) as [Hin Hout].
  rewrite Hloop in Hin, Hout. cbn [snd] in Hin, Hout. done.
Qed.

Lemma fetchContractData_Some_meta io chain rpc w nr w' :
  fetchContractData Math_pow markets ChainId io chain rpc w = (Normal (Some nr), w') →
  property networkMetadata chain =
    Some {| nm_name := networkName nr; nm_image_url := networkImage nr |}.
Proof.
  unfold fetchContractData, try_catch.
  match goal with |- context [match ?b w with _ => _ end] =>
    destruct (b w) as [[r|e] w1] eqn:Hbody end.
  2:{ unfold bind, console_error, console_write, ret. intros [=]. }
  intros [= -> ->]. cbv zeta in Hbody.
  destruct (markets _) as [market|]; [|done].
  unfold bind at 1 in Hbody. unfold lift at 1 in Hbody.
  destruct (getUserReservesHumanized _ _ _ _) as [userReserves|]; [|done].
  unfold bind at 1 in Hbody. unfold lift at 1 in Hbody.
  destruct (getReservesHumanized _ _ _) as [reservesData|]; [|done].
  unfold bind at 1 in Hbody.
  destruct (fetchTokenList _ _ w) as [[tokenList|] w2]; [|done].
  unfold bind at 1 in Hbody.
  destruct (map_async _ _ w2) as [[promises|] w3]; [|done].
  unfold bind at 1 in Hbody. unfold lift at 1 in Hbody.
  destruct (Promise_all promises) as [all|]; [|done].
  destruct (0 <? length (filter_Boolean all))%nat; [|done].
  destruct (property networkMetadata chain) as [[nm img]|]; [|done].
  unfold bind, lift, ret in Hbody.
  destruct (reduce_balanceInUSD all zero) as [total|]; [|done].
  by injection Hbody as <- <-.
Qed.

Lemma omap_alone_sublist io w entries :
  (network <$> omap (alone Math_pow markets ChainId io w) entries)
    `sublist_of` entries.*1.
Proof.
  induction entries as [|[chain rpc] entries IH]; [done|].
  cbn [omap list_omap fmap list_fmap fst]. unfold alone at 1. cbn [fst snd].
  destruct (fetchContractData_Normal Math_pow markets ChainId (io chain) chain rpc w)
    as (r & w1 & Hrun).
  rewrite Hrun. cbn [fst completed].
  destruct r as [nr|].
  - apply (fetchContractData_Some Math_pow markets ChainId) in Hrun as [Hnet _].
    cbn [fmap list_fmap]. rewrite Hnet. by apply sublist_skip.
  - by apply sublist_cons.
Qed.

(** X13: the handler answers 200 with results whose networks follow the
    configuration order without repetition; every result has at least one
    asset and carries the name and image of the network's metadata. *)
Theorem response_follows_configuration io w :
  ∃ results w',
    liquidity_rates Math_pow markets ChainId io w =
      (Normal {| status := 200; body := json results |}, w') ∧
    (network <$> results) `sublist_of` chainProviders.*1 ∧
    ∀ nr, nr ∈ results →
      assets nr ≠ [] ∧
      property networkMetadata (network nr) =
        Some {| nm_name := networkName nr; nm_image_url := networkImage nr |}.
Proof.
  destruct (liquidity_rates_200 Math_pow markets ChainId io w)
    as (results & w' & Hresp & Hloop).
  exists results, w'. split; [done|].
  pose proof (for_of_isolated Math_pow markets ChainId io chainProviders []
                (logged (console_log_line "REQ") w) w NoDup_chainProviders
                ltac:(done)) as Hiso.
  rewrite Hloop in Hiso. cbn [fst] in Hiso.
  pose proof (omap_alone_sublist io w chainProviders) as Hsub.
  set (alone_results := omap (alone Math_pow markets ChainId io w) chainProviders) in *.
  rewrite app_nil_l in Hiso. injection Hiso as Hiso.
  split; [by rewrite Hiso|].
  intros nr Hnr.
  destruct (for_of_results _ _ _ _ _ _ _ _ _ Hloop nr Hnr)
    as [Hnil | (chain & rpc & w1 & w2 & _ & Hfetch)].
  { by apply elem_of_nil in Hnil. }
  pose proof (fetchContractData_Some_meta _ _ _ _ _ _ Hfetch) as Hmeta.
  apply (fetchContractData_Some Math_pow markets ChainId) in Hfetch
    as (Hnet & Hne & _).
  rewrite Hnet. done.
Qed.

Lemma add_zero_positive x : ltb zero x = true → add zero x = x.
Proof. by destruct x as [[]|[]| |[] m e]. Qed.

(** X17: for every NetworkResult of the HTTP response, totalBalanceUSD is
    the left-to-right binary64 sum of the balanceInUSD of its assets,
    starting from 0; with a single asset of positive balance it is that
    balance. *)
Theorem response_total_is_the_sum io w resp w' results nr :
  liquidity_rates Math_pow markets ChainId io w = (Normal resp, w') →
  body resp = json results →
  nr ∈ results →
  totalBalanceUSD nr =
    fold_left (λ s a, add s (balanceInUSD a)) (assets nr) zero ∧
  (∀ a, assets nr = [a] → ltb zero (balanceInUSD a) = true →
     totalBalanceUSD nr = balanceInUSD a).
Proof.
  intros Hrun Hbody Hnr.
  destruct (liquidity_rates_200 Math_pow markets ChainId io w)
    as (results' & w'' & Hresp & Hloop).
  rewrite Hresp in Hrun. injection Hrun as <- <-.
  cbn [body] in Hbody. injection Hbody as ->.
  destruct (for_of_results _ _ _ _ _ _ _ _ _ Hloop nr Hnr)
    as [Hnil | (chain & rpc & w1 & w2 & _ & Hfetch)].
  { by apply elem_of_nil in Hnil. }
  apply (fetchContractData_Some Math_pow markets ChainId) in Hfetch
    as (_ & _ & _ & Htotal).
  split; [done|].
  intros a Hone Hpos. rewrite Htotal, Hone. cbn [fold_left].
  by apply add_zero_positive.
Qed.

End More.

End Laws.

(** * The scenarios, evaluated *)

(** The strings of the scenarios are ASCII text, on which the case mappings
    of the engine are those of [ascii_text]. *)
#[local] Existing Instance ascii_text.

(** The request of the healthy scenario answers with the ethereum result. *)
Lemma run_healthy :
  run healthy_io =
    (Normal {| status := 200; body := json [ethereum_result] |}, snd (run healthy_io)).
Proof. vm_compute. reflexivity. Qed.

(** C1 (what the code does instead): with one matched and one unmatched
    positive-balance reserve, the sum over the unfiltered list throws a
    TypeError on the null element; fetchContractData logs it and returns
    null, so the response has no NetworkResult and no totalBalanceUSD for
    the network, while the matched reserve alone gives a NetworkResult. *)
Theorem null_asset_fails_the_sum :
  reduce_balanceInUSD [Some usdc_asset; None] zero =
    Throw (TypeError "Cannot read properties of null (reading 'balanceInUSD')") ∧
  fst (fetch_ethereum mixed_io) = Normal None ∧
  console (snd (fetch_ethereum mixed_io)) =
    [ console_log_line
        "No reserve data found for 0x6B175474E89094C44Da98b954EedeAC495271d0F";
      console_error_line "Error fetching contract data for ethereum:"
        (TypeError "Cannot read properties of null (reading 'balanceInUSD')") ] ∧
  fst (run (ethereum_only mixed_io)) =
    Normal {| status := 200; body := json [] |} ∧
  fst (fetch_ethereum (rpc_up [usdc_position] [usdc_reserve; weth_reserve])) =
    Normal (Some {| network := "ethereum";
                    networkName := "Ethereum";
                    networkImage := networkImage ethereum_result;
                    assets := [usdc_asset];
                    totalBalanceUSD := balanceInUSD usdc_asset |}).
Proof.
  split; [reflexivity|].
  split; [by vm_compute|].
  split; [by vm_compute|].
  split; by vm_compute.
Qed.

(** The unmatched DAI position makes the ethereum result disappear, the
    matched USDC position with it. *)
Lemma unmatched_reserve_drops_network_witness :
  dai_position ∈ [usdc_position; dai_position] ∧
  0 < scaledATokenBalance dai_position ∧
  List.find (matches dai_position) [usdc_reserve; weth_reserve] = None ∧
  fst (fetch_ethereum mixed_io) = Normal None.
Proof.
  split; [apply list_elem_of_further, list_elem_of_here|].
  split; [reflexivity|]. split; [reflexivity|].
  apply (unmatched_reserve_drops_network
           pow_repeated (property address_book) (property chain_ids)
           mixed_io "ethereum" ethereum_rpc boot
           [usdc_position; dai_position] [usdc_reserve; weth_reserve] dai_position).
  - intros; reflexivity.
  - intros; reflexivity.
  - apply list_elem_of_further, list_elem_of_here.
  - reflexivity.
  - reflexivity.
Defined.

(** The ethereum reads of the healthy scenario give indexes of 1.05 and 1.02
    rays; the WETH asset of its response is positive. *)
Lemma response_tokenBalance_positive_witness :
  index_from_one_ray (healthy_io "ethereum") ∧
  weth_asset ∈ assets ethereum_result ∧
  ltb zero (tokenBalance weth_asset) = true.
Proof.
  split.
  { intros contract addressProvider reservesData reserveData [= <-] Hmem.
    apply elem_of_cons in Hmem as [-> | Hmem]; [by vm_compute|].
    apply list_elem_of_singleton in Hmem as ->. by vm_compute. }
  split; [apply list_elem_of_further, list_elem_of_here|].
  apply (response_tokenBalance_positive
           pow_repeated (property address_book) (property chain_ids)
           healthy_io boot {| status := 200; body := json [ethereum_result] |}
           (snd (run healthy_io)) [ethereum_result] ethereum_result weth_asset).
  - intros chain contract addressProvider reservesData reserveData.
    unfold healthy_io, ethereum_only.
    destruct (String.eqb chain "ethereum"); [|discriminate].
    intros [= <-] Hmem.
    apply elem_of_cons in Hmem as [-> | Hmem]; [by vm_compute|].
    apply list_elem_of_singleton in Hmem as ->. by vm_compute.
  - exact run_healthy.
  - reflexivity.
  - apply list_elem_of_here.
  - apply list_elem_of_further, list_elem_of_here.
Defined.

(** The USDC asset of the healthy scenario. *)
Lemma response_balanceInUSD_is_product_witness :
  usdc_asset ∈ assets ethereum_result ∧
  balanceInUSD usdc_asset = mul (tokenBalance usdc_asset) (priceInUSD usdc_asset).
Proof.
  split; [apply list_elem_of_here|].
  apply (response_balanceInUSD_is_product
           pow_repeated (property address_book) (property chain_ids)
           healthy_io boot {| status := 200; body := json [ethereum_result] |}
           (snd (run healthy_io)) [ethereum_result] ethereum_result usdc_asset).
  - exact run_healthy.
  - reflexivity.
  - apply list_elem_of_here.
  - apply list_elem_of_here.
Defined.

(** C5 as stated fails: the entry for ethereum is 24 hours old, the call
    sends a request, the request is refused, and the entry is still the old
    one afterwards (it is not replaced); the caller gets the empty map. *)
Lemma expired_entry_survives_failed_refresh :
  fresh (1700000000000 + CACHE_DURATION)
        (tokenListCache cached_world !! "ethereum") = false ∧
  fst (fetchTokenList (token_list_down (1700000000000 + CACHE_DURATION))
         "ethereum" cached_world) = Normal ∅ ∧
  requests (snd (fetchTokenList (token_list_down (1700000000000 + CACHE_DURATION))
                   "ethereum" cached_world)) = [ethereum_token_list] ∧
  tokenListCache
    (snd (fetchTokenList (token_list_down (1700000000000 + CACHE_DURATION))
            "ethereum" cached_world)) !! "ethereum" =
    Some {| data := usdc_map; timestamp := 1700000000000 |}.
Proof.
  split; [reflexivity|].
  split; [by vm_compute|].
  split; by vm_compute.
Qed.

(** A fetch at boot, a second call one hour later (served from the cache
    although the server is down by then) and one 25 hours later (a new
    request). *)
Lemma fetchTokenList_second_call_witness :
  let first := fetchTokenList (token_list_up 1700000000000) "ethereum" boot in
  let hour := 60 * 60 * 1000 in
  fst first = Normal usdc_map ∧
  fetchTokenList (token_list_down (1700000000000 + hour)) "ethereum" (snd first) =
    (Normal usdc_map, snd first) ∧
  requests
    (snd (fetchTokenList (token_list_up (1700000000000 + 25 * hour)) "ethereum"
            (snd first))) =
    requests (snd first) ++ [ethereum_token_list].
Proof.
  pose proof (fetchTokenList_second_call
                (token_list_up 1700000000000)
                (token_list_down (1700000000000 + 60 * 60 * 1000))
                "ethereum" ethereum_token_list boot usdc_map
                eq_refl eq_refl eq_refl) as (Hfirst & Hwithin & _).
  pose proof (fetchTokenList_second_call
                (token_list_up 1700000000000)
                (token_list_up (1700000000000 + 25 * (60 * 60 * 1000)))
                "ethereum" ethereum_token_list boot usdc_map
                eq_refl eq_refl eq_refl) as (_ & _ & Hpast).
  split; [exact Hfirst|]. split.
  - apply Hwithin. reflexivity.
  - apply Hpast. discriminate.
Defined.

(** A refused connection at boot. *)
Lemma fetchTokenList_catches_errors_witness :
  retrieval (token_list_down 1700000000000) ethereum_token_list =
    Throw (Rejected "ECONNREFUSED") ∧
  fetchTokenList (token_list_down 1700000000000) "ethereum" boot =
    (Normal ∅, logged (warning "ethereum") (requested ethereum_token_list boot)).
Proof.
  split; [reflexivity|].
  apply (proj1 (proj2 (fetchTokenList_catches_errors
                         (token_list_down 1700000000000) "ethereum" boot))
           ethereum_token_list (Rejected "ECONNREFUSED"));
    reflexivity.
Defined.

(** A refused connection at boot, then a call one millisecond later with
    the server up again. *)
Lemma failed_fetch_is_not_cached_witness :
  let failed := fetchTokenList (token_list_down 1700000000000) "ethereum" boot in
  fst failed = Normal ∅ ∧
  tokenListCache (snd failed) = tokenListCache boot ∧
  fetchTokenList (token_list_up 1700000000001) "ethereum" (snd failed) =
    (Normal usdc_map,
     stored "ethereum" {| data := usdc_map; timestamp := 1700000000251 |}
       (requested ethereum_token_list (snd failed))).
Proof.
  pose proof (failed_fetch_is_not_cached
                (token_list_down 1700000000000) (token_list_up 1700000000001)
                "ethereum" ethereum_token_list boot (Rejected "ECONNREFUSED")
                eq_refl eq_refl eq_refl) as (Hempty & Hcache & Hnext).
  split; [exact Hempty|]. split; [exact Hcache|].
  apply Hnext. discriminate.
Defined.

(** All six networks unreachable, and ethereum alone reachable. *)
Lemma liquidity_rates_isolates_failures_witness :
  fst (run (λ _, rpc_down)) = Normal {| status := 200; body := json [] |} ∧
  fst (run healthy_io) =
    Normal {| status := 200;
              body := json (omap (alone pow_repeated (property address_book)
                                    (property chain_ids) healthy_io boot)
                              chainProviders) |}.
Proof.
  destruct (liquidity_rates_isolates_failures
              pow_repeated (property address_book) (property chain_ids)
              (λ _, rpc_down) boot) as [_ Hall].
  destruct (liquidity_rates_isolates_failures
              pow_repeated (property address_book) (property chain_ids)
              healthy_io boot) as [[w' Hrun] _].
  split.
  - destruct Hall as [w'' Hdown].
    + intros chain _. left. intros. by eexists.
    + unfold run. by rewrite Hdown.
  - unfold run. by rewrite Hrun.
Defined.

(** The USDC position: 1000 scaled units, index 1.05 rays, 6 decimals. *)
Lemma asset_of_real_balance_witness :
  List.find (matches usdc_position) [usdc_reserve; weth_reserve] = Some usdc_reserve ∧
  ∃ a,
    asset_of pow_repeated usdc_map [usdc_reserve; weth_reserve] usdc_position boot =
      (Normal (Some a), boot) ∧
    Z.quot (scaledATokenBalance usdc_position * liquidityIndex usdc_reserve) (10 ^ 27) =
      1050 ∧
    tokenBalance a = S754_finite false 4842270319348757 (-62).
Proof.
  split; [reflexivity|].
  destruct (asset_of_real_balance (js := ascii_text) pow_repeated usdc_map
              [usdc_reserve; weth_reserve] usdc_position usdc_reserve boot
              eq_refl) as (a & Hrun & _ & Hscenario).
  - cbn. lia.
  - exists a. split; [exact Hrun|].
    destruct (Hscenario eq_refl eq_refl eq_refl) as (Hraw & Hbalance & _).
    split; [exact Hraw | exact Hbalance].
Defined.

(** The WETH position against a token list that has USDC only. *)
Lemma asset_of_missing_metadata_witness :
  forEach_set [usdc_token] ∅ = Normal usdc_map ∧
  ∃ a,
    asset_of pow_repeated usdc_map [usdc_reserve; weth_reserve] weth_position boot =
      (Normal (Some a), boot) ∧
    a_symbol a = "WETH" ∧
    name a = Some "WETH" ∧
    image_url a = Some placeholder_image.
Proof.
  split; [reflexivity|].
  apply (asset_of_missing_metadata pow_repeated [usdc_token] usdc_map
           [usdc_reserve; weth_reserve] weth_position weth_reserve boot).
  - reflexivity.
  - intros token s Hin Hs.
    apply list_elem_of_singleton in Hin as ->. injection Hs as <-. discriminate.
  - reflexivity.
  - cbn. lia.
Defined.

(** ** The further scenarios, evaluated *)

Lemma rpc_up_answers positions market : answers (rpc_up positions market) positions market.
Proof. by split. Qed.

(** Only an empty position on ethereum. *)
Lemma no_balance_returns_null_witness :
  fetch_ethereum (rpc_up [empty_position] [usdc_reserve; weth_reserve]) =
    (Normal None, snd (fetchTokenList (token_list_up 1700000000000) "ethereum" boot)).
Proof.
  apply (no_balance_returns_null pow_repeated (property address_book)
           (property chain_ids)
           (rpc_up [empty_position] [usdc_reserve; weth_reserve])
           "ethereum" ethereum_rpc boot sample_market
           [empty_position] [usdc_reserve; weth_reserve]).
  - reflexivity.
  - apply rpc_up_answers.
  - intros reserve Hin. apply list_elem_of_singleton in Hin as ->. done.
Defined.

(** The healthy scenario: two matched positions and an empty one. *)
Lemma all_matched_returns_the_assets_witness :
  ∃ nr,
    fetch_ethereum (healthy_io "ethereum") =
      (Normal (Some nr), snd (fetchTokenList (token_list_up 1700000000000) "ethereum" boot)) ∧
    network nr = "ethereum" ∧
    networkName nr = "Ethereum" ∧
    networkImage nr = nm_image_url ethereum_meta ∧
    Forall2 (λ reserve a,
               ∃ reserveData,
                 List.find (matches reserve) [usdc_reserve; weth_reserve] =
                   Some reserveData ∧
                 derived_from reserve reserveData a)
            (List.filter has_balance [usdc_position; weth_position; empty_position])
            (assets nr) ∧
    totalBalanceUSD nr =
      fold_left (λ s a, add s (balanceInUSD a)) (assets nr) zero.
Proof.
  apply (all_matched_returns_the_assets pow_repeated (property address_book)
           (property chain_ids) (healthy_io "ethereum")
           "ethereum" ethereum_rpc boot sample_market ethereum_meta
           [usdc_position; weth_position; empty_position]
           [usdc_reserve; weth_reserve] usdc_position).
  - reflexivity.
  - reflexivity.
  - apply rpc_up_answers.
  - apply list_elem_of_here.
  - reflexivity.
  - intros reserve Hin Hpos.
    apply elem_of_cons in Hin as [-> | Hin];
      [exists usdc_reserve; split; [reflexivity | cbn; lia]|].
    apply elem_of_cons in Hin as [-> | Hin];
      [exists weth_reserve; split; [reflexivity | cbn; lia]|].
    apply list_elem_of_singleton in Hin as ->. done.
Defined.

(** Ethereum unreachable. *)
Lemma rpc_failure_touches_nothing_witness :
  ∃ error,
    fetch_ethereum rpc_down = (Normal None, logged (error_line "ethereum" error) boot).
Proof.
  apply (rpc_failure_touches_nothing pow_repeated (property address_book)
           (property chain_ids) rpc_down "ethereum" ethereum_rpc boot).
  left. intros. by eexists.
Defined.

(** A matched position whose market reserve reports 300 decimals, next to a
    healthy one. *)
Lemma bad_decimals_drop_network_witness :
  List.find (matches usdc_position) [wide_reserve; weth_reserve] = Some wide_reserve ∧
  fst (fetch_ethereum (rpc_up [weth_position; usdc_position]
                         [wide_reserve; weth_reserve])) = Normal None.
Proof.
  split; [reflexivity|].
  apply (bad_decimals_drop_network pow_repeated (property address_book)
           (property chain_ids)
           (rpc_up [weth_position; usdc_position] [wide_reserve; weth_reserve])
           "ethereum" ethereum_rpc boot
           [weth_position; usdc_position] [wide_reserve; weth_reserve]
           usdc_position wide_reserve).
  - apply rpc_up_answers.
  - apply list_elem_of_further, list_elem_of_here.
  - reflexivity.
  - reflexivity.
  - cbn. lia.
Defined.

(** Two tokens with the symbol USDC in different cases: the second wins. *)
Lemma token_map_last_wins_witness :
  ∃ tokenMap,
    buildTokenMap {| tl_tokens := Some [usdc_token; usdc_token_again] |} =
      Normal tokenMap ∧
    tokenMap !! "USDC" =
      Some {| te_name := Some "USD Coin"; te_symbol := "USDC"; te_image_url := None |}.
Proof.
  eexists. split; [reflexivity|].
  refine (token_map_last_wins (js := ascii_text)
            [usdc_token] usdc_token_again [] "USDC" _ _ _ _).
  - reflexivity.
  - reflexivity.
  - intros token' s' Hin. by apply elem_of_nil in Hin.
Defined.

(** A list with one token without a symbol after a good one. *)
Lemma malformed_token_discards_the_list_witness :
  fetchTokenList (token_list_of [usdc_token; nameless_token] 1700000000000)
    "ethereum" boot =
    (Normal ∅, logged (warning "ethereum") (requested ethereum_token_list boot)).
Proof.
  apply (malformed_token_discards_the_list
           (token_list_of [usdc_token; nameless_token] 1700000000000)
           "ethereum" boot ethereum_token_list 200
           [usdc_token; nameless_token] nameless_token).
  - reflexivity.
  - reflexivity.
  - reflexivity.
  - apply list_elem_of_further, list_elem_of_here.
  - reflexivity.
Defined.

(** A list of two well-formed tokens. *)
Lemma well_formed_list_is_cached_witness :
  ∃ tokenMap,
    fetchTokenList (token_list_of [usdc_token; usdc_token_again] 1700000000000)
      "ethereum" boot =
      (Normal tokenMap,
       stored "ethereum" {| data := tokenMap; timestamp := 1700000000250 |}
         (requested ethereum_token_list boot)) ∧
    dom tokenMap =
      list_to_set (omap (λ token, toUpperCase <$> tj_symbol token)
                     [usdc_token; usdc_token_again]).
Proof.
  apply (well_formed_list_is_cached
           (token_list_of [usdc_token; usdc_token_again] 1700000000000)
           "ethereum" boot ethereum_token_list 200 [usdc_token; usdc_token_again]).
  - reflexivity.
  - reflexivity.
  - reflexivity.
  - intros token Hin.
    apply elem_of_cons in Hin as [-> | Hin]; [by eexists|].
    apply list_elem_of_singleton in Hin as ->. by eexists.
Defined.

(** The DAI position of the mixed scenario. *)
Lemma unmatched_reserve_is_reported_witness :
  diagnostic dai_position ∈ console (snd (fetch_ethereum mixed_io)).
Proof.
  apply (unmatched_reserve_is_reported pow_repeated (property address_book)
           (property chain_ids) mixed_io "ethereum" ethereum_rpc boot sample_market
           [usdc_position; dai_position] [usdc_reserve; weth_reserve] dai_position).
  - reflexivity.
  - apply rpc_up_answers.
  - apply list_elem_of_further, list_elem_of_here.
  - reflexivity.
  - reflexivity.
Defined.

(** The mixed scenario, which ends in the catch. *)
Lemma fetcher_effects_are_the_token_list_call_witness :
  tokenListCache (snd (fetch_ethereum mixed_io)) =
    tokenListCache (snd (fetchTokenList (token_list_up 1700000000000) "ethereum" boot)) ∧
  requests (snd (fetch_ethereum mixed_io)) =
    requests (snd (fetchTokenList (token_list_up 1700000000000) "ethereum" boot)) ∧
  console (snd (fetchTokenList (token_list_up 1700000000000) "ethereum" boot))
    `prefix_of` console (snd (fetch_ethereum mixed_io)).
Proof.
  apply (fetcher_effects_are_the_token_list_call pow_repeated (property address_book)
           (property chain_ids) mixed_io "ethereum" ethereum_rpc boot sample_market
           [usdc_position; dai_position] [usdc_reserve; weth_reserve]).
  - reflexivity.
  - apply rpc_up_answers.
Defined.

(** A balance of 1050 units with 6 decimals. *)
Lemma normalizeBalance_of_uint256_witness :
  ∃ x, normalizeBalance 1050 (Some 6) = Normal x ∧
       (1050 = 0 → x = zero) ∧
       (0 < 1050 → ∃ m e, x = S754_finite false m e).
Proof.
  apply (normalizeBalance_of_uint256 1050 6).
  - split; [lia | by vm_compute].
  - lia.
Defined.

(** The USDC position against a token list that spells the symbol usdc. *)
Lemma asset_of_listed_metadata_witness :
  ∃ a,
    asset_of pow_repeated usdc_map [usdc_reserve; weth_reserve] usdc_position boot =
      (Normal (Some a), boot) ∧
    a_symbol a = "USDC" ∧
    name a = Some "USDCoin" ∧
    image_url a = Some "https://tokens.example/usdc.png".
Proof.
  apply (asset_of_listed_metadata pow_repeated [] usdc_token [] "usdc" usdc_map
           [usdc_reserve; weth_reserve] usdc_position usdc_reserve boot).
  - reflexivity.
  - reflexivity.
  - reflexivity.
  - intros token' s' Hin. by apply elem_of_nil in Hin.
  - reflexivity.
  - cbn. lia.
Defined.

(** The healthy request served from a warm cache. *)
Lemma fresh_cache_sends_no_request_witness :
  requests (snd (liquidity_rates pow_repeated (property address_book)
                   (property chain_ids) healthy_io warm_world)) = [] ∧
  tokenListCache (snd (liquidity_rates pow_repeated (property address_book)
                         (property chain_ids) healthy_io warm_world)) =
    tokenListCache warm_world.
Proof.
  apply (fresh_cache_sends_no_request pow_repeated (property address_book)
           (property chain_ids) healthy_io warm_world).
  intros chain Hin.
  repeat (apply elem_of_cons in Hin as [-> | Hin]; [reflexivity|]).
  by apply elem_of_nil in Hin.
Defined.

(** The ethereum result of the healthy request. *)
Lemma response_total_is_the_sum_witness :
  totalBalanceUSD ethereum_result =
    fold_left (λ s a, add s (balanceInUSD a)) (assets ethereum_result) zero ∧
  (∀ a, assets ethereum_result = [a] → ltb zero (balanceInUSD a) = true →
     totalBalanceUSD ethereum_result = balanceInUSD a).
Proof.
  apply (response_total_is_the_sum pow_repeated (property address_book)
           (property chain_ids) healthy_io boot
           {| status := 200; body := json [ethereum_result] |}
           (snd (run healthy_io)) [ethereum_result] ethereum_result).
  - exact run_healthy.
  - reflexivity.
  - apply list_elem_of_here.
Defined.
